(** * fete-voisins-api: the edge proxy and the browser client

    A shallow embedding of [src/api.js] (the CORS proxy, [handleRequest]) and
    of the browser client [FeteVoisinsApiClient] ([makeRequest],
    [refreshCsrfToken], [init], [submitContribution], [validateFormData]),
    with the properties of the specification stated over it.

    Conventions of the embedding.
    - A string is the sequence of the bytes of its UTF-8 encoding.  The
      characters the code looks for (digits, signs, [@], [.]) are one byte
      each; white space ([\s] of a regular expression, what [trim] and
      [parseInt] skip) is the six ASCII blanks and the nineteen Unicode
      blanks of JavaScript, recognised by their two or three bytes
      ([space_width]).
    - A JSON value is a tree ([json]); numbers are integers ([Z]).
      [ToString] prints a number as its plain decimal numeral, which is
      what JavaScript does for the integers a number holds exactly, those
      below 2^53 in absolute value ([isSafeInteger]); beyond them
      JavaScript rounds, and from 10^21 on prints an exponent.  The values
      all of whose numbers are within that range are the [plain] ones.
    - An object is the list of its properties in insertion order, which
      is the order of [Object.keys] for the names used here.
    - [JSON.parse] and [JSON.stringify] are built-ins of the runtime, not
      code of this repository.  A text that the code only ever hands to
      [JSON.parse] is represented by the outcome of that call
      ([option json], [None] for a [SyntaxError]); the text produced by
      [JSON.stringify j] is the payload [Stringified j].
    - The network is an oracle answering each outbound call; every call is
      recorded in a trace, so that no call being made is a statement about
      the trace.
    - The objects a caller hands to the client live in a store and are
      passed by reference, so that a write into one is seen by the caller.
      [makeRequest] is the call whose [params] is an object written at the
      call, as the client's own calls are; [makeRequest_on] is the call on
      a [params] object of the caller, which receives the [origin]. *)

From Stdlib Require Import ZArith String Ascii List Lia Bool.
From stdpp Require Import base gmap strings.

Open Scope string_scope.
Open Scope list_scope.
Open Scope Z_scope.

(** ** JavaScript values and built-ins used by both programs *)

Module JS.

#[local] Set Warnings "-register-all".

Inductive json : Type :=
| JNull
| JBool (b : bool)
| JNum (z : Z)
| JStr (s : string)
| JArr (items : list json)
| JObj (fields : list (string * json)).

(** An object is its list of own properties, in insertion order. *)
Abbreviation object := (list (string * json)).

(** [ToBoolean]: what [if (v)], [!v] and [v || w] test. *)
Definition truthy (v : json) : bool :=
  match v with
  | JNull => false
  | JBool b => b
  | JNum z => negb (z =? 0)
  | JStr s => negb (String.eqb s "")
  | JArr _ | JObj _ => true
  end.

(** A property read that found nothing yields [undefined], here [None]. *)
Definition truthy_opt (v : option json) : bool :=
  match v with
  | Some j => truthy j
  | None => false
  end.

Fixpoint assoc (k : string) (fs : object) : option json :=
  match fs with
  | [] => None
  | (k', v) :: rest => if String.eqb k k' then Some v else assoc k rest
  end.

(** [o[k] = v]: an existing property keeps its place, a new one goes last. *)
Fixpoint set_prop (k : string) (v : json) (fs : object) : object :=
  match fs with
  | [] => [(k, v)]
  | (k', v') :: rest =>
      if String.eqb k k' then (k, v) :: rest else (k', v') :: set_prop k v rest
  end.

(** [v.k] for a value that is not [null]: only objects carry the property
    names this code reads ([csrfToken], [result], [nom], ...); strings,
    numbers, booleans and arrays answer [undefined]. *)
Definition prop (v : json) (k : string) : option json :=
  match v with
  | JObj fs => assoc k fs
  | _ => None
  end.

(** [v === 's'] for a string literal ['s']. *)
Definition is_string (v : option json) (s : string) : bool :=
  match v with
  | Some (JStr s') => String.eqb s' s
  | _ => false
  end.

(** [String.prototype.includes]. *)
Fixpoint includes (hay needle : string) : bool :=
  String.prefix needle hay
  || match hay with
     | EmptyString => false
     | String _ rest => includes rest needle
     end.

(** [Array.prototype.join]. *)
Fixpoint join (sep : string) (l : list string) : string :=
  match l with
  | [] => ""
  | [x] => x
  | x :: rest => x +:+ sep +:+ join sep rest
  end.

(** *** Decimal numerals *)

Definition digit_char (d : N) : ascii := ascii_of_N (48 + d).

Fixpoint decimal_go (fuel : nat) (n : N) (acc : string) : string :=
  let acc' := String (digit_char (n mod 10)) acc in
  match fuel with
  | O => acc'
  | S fuel' => if (n <? 10)%N then acc' else decimal_go fuel' (n / 10) acc'
  end.

(** The decimal numeral of [n], without leading zeros. *)
Definition decimal (n : N) : string := decimal_go (N.size_nat n) n "".


(** [Number.prototype.toString] on a safe integer: its decimal numeral.
    (Beyond the safe integers JavaScript prints the shortest numeral that
    reads back as the same number, and from 10^21 on an exponent.) *)
Definition Z_toString (z : Z) : string :=
  if z <? 0 then String "-" (decimal (Z.to_N (- z))) else decimal (Z.to_N z).


(** [ToString], as [new Error(v)], [parseInt(v)] and [regex.test(v)] apply
    it to their argument. *)
Fixpoint ToString (v : json) : string :=
  match v with
  | JNull => "null"
  | JBool true => "true"
  | JBool false => "false"
  | JNum z => Z_toString z
  | JStr s => s
  | JArr items =>
      join "," (map (fun x => match x with JNull => "" | _ => ToString x end) items)
  | JObj _ => "[object Object]"
  end.

Definition ToString_opt (v : option json) : string :=
  match v with
  | Some j => ToString j
  | None => "undefined"
  end.

(** *** [parseInt] with no radix argument *)

(** White space of one byte: TAB, LF, VT, FF, CR and the space. *)
Definition is_space (c : ascii) : bool :=
  let n := N_of_ascii c in
  ((9 <=? n) && (n <=? 13) || (n =? 32))%N.

(** White space of two bytes: U+00A0, the bytes C2 A0. *)
Definition is_space2 (c1 c2 : ascii) : bool :=
  ((N_of_ascii c1 =? 194) && (N_of_ascii c2 =? 160))%N.

(** White space of three bytes: U+1680 (E1 9A 80), U+2000 to U+200A
    (E2 80 80 to E2 80 8A), U+2028, U+2029 and U+202F (E2 80 A8, A9, AF),
    U+205F (E2 81 9F), U+3000 (E3 80 80) and U+FEFF (EF BB BF). *)
Definition is_space3 (c1 c2 c3 : ascii) : bool :=
  let b1 := N_of_ascii c1 in
  let b2 := N_of_ascii c2 in
  let b3 := N_of_ascii c3 in
  ((b1 =? 225) && ((b2 =? 154) && (b3 =? 128))
   || (b1 =? 226) && ((b2 =? 128)
                      && ((128 <=? b3) && (b3 <=? 138)
                          || (b3 =? 168) || (b3 =? 169) || (b3 =? 175))
                      || (b2 =? 129) && (b3 =? 159))
   || (b1 =? 227) && ((b2 =? 128) && (b3 =? 128))
   || (b1 =? 239) && ((b2 =? 187) && (b3 =? 191)))%N.

(** The number of bytes of the white-space character [s] starts with, 0
    when it starts with none. *)
Definition space_width (s : string) : nat :=
  match s with
  | EmptyString => 0
  | String c1 rest1 =>
      if is_space c1 then 1
      else match rest1 with
           | EmptyString => 0
           | String c2 rest2 =>
               if is_space2 c1 c2 then 2
               else match rest2 with
                    | EmptyString => 0
                    | String c3 _ => if is_space3 c1 c2 c3 then 3 else 0
                    end
           end
  end%nat.

(** No white-space character anywhere in [s]. *)
Fixpoint spaceless (s : string) : bool :=
  match s with
  | EmptyString => true
  | String _ rest => (space_width s =? 0)%nat && spaceless rest
  end.

Fixpoint trim_start (s : string) : string :=
  match s with
  | EmptyString => s
  | String c1 rest1 =>
      if is_space c1 then trim_start rest1
      else match rest1 with
           | EmptyString => s
           | String c2 rest2 =>
               if is_space2 c1 c2 then trim_start rest2
               else match rest2 with
                    | EmptyString => s
                    | String c3 rest3 =>
                        if is_space3 c1 c2 c3 then trim_start rest3 else s
                    end
           end
  end.

Definition dec_digit (c : ascii) : option N :=
  let n := N_of_ascii c in
  if ((48 <=? n) && (n <=? 57))%N then Some (n - 48)%N else None.

Definition hex_digit (c : ascii) : option N :=
  let n := N_of_ascii c in
  if ((48 <=? n) && (n <=? 57))%N then Some (n - 48)%N
  else if ((97 <=? n) && (n <=? 102))%N then Some (n - 87)%N
  else if ((65 <=? n) && (n <=? 70))%N then Some (n - 55)%N
  else None.

Definition is_digit (c : ascii) : bool :=
  match dec_digit c with
  | Some _ => true
  | None => false
  end.

Fixpoint all_chars (p : ascii -> bool) (s : string) : bool :=
  match s with
  | EmptyString => true
  | String c rest => p c && all_chars p rest
  end.

(** Reads the longest prefix of digits; [None] when it is empty. *)
Fixpoint digits (radix : N) (digit : ascii -> option N)
         (s : string) (acc : option N) : option N :=
  match s with
  | String c rest =>
      match digit c with
      | Some d =>
          digits radix digit rest
                 (Some (match acc with Some a => a * radix + d | None => d end)%N)
      | None => acc
      end
  | EmptyString => acc
  end.

(** A leading ["-"] or ["+"] is taken off; the flag tells a ["-"]. *)
Definition strip_sign (s : string) : bool * string :=
  match s with
  | String c rest =>
      if Ascii.eqb c "-" then (true, rest)
      else if Ascii.eqb c "+" then (false, rest)
      else (false, s)
  | EmptyString => (false, s)
  end.

(** With no radix given, a ["0x"] or ["0X"] prefix selects base 16. *)
Definition unsigned_int (s : string) : option N :=
  match s with
  | String c0 (String c1 rest) =>
      if Ascii.eqb c0 "0" && (Ascii.eqb c1 "x" || Ascii.eqb c1 "X")
      then digits 16 hex_digit rest None
      else digits 10 dec_digit s None
  | _ => digits 10 dec_digit s None
  end.

(** [parseInt(s)]; [None] is [NaN]. *)
Definition parseInt (s : string) : option Z :=
  let '(neg, rest) := strip_sign (trim_start s) in
  match unsigned_int rest with
  | Some n => Some (if neg then - Z.of_N n else Z.of_N n)
  | None => None
  end.

(** [x > y] on numbers: false as soon as one side is [NaN]. *)
Definition num_gt (x : option Z) (y : Z) : bool :=
  match x with
  | Some a => y <? a
  | None => false
  end.

Definition num_lt (x : option Z) (y : Z) : bool :=
  match x with
  | Some a => a <? y
  | None => false
  end.

Definition isNaN (x : option Z) : bool :=
  match x with
  | Some _ => false
  | None => true
  end.

(** The body of an HTTP message as the code builds it: a text passed
    along as it is, or the text [JSON.stringify j]. *)
Inductive payload : Type :=
| Raw (text : string)
| Stringified (j : json).

End JS.

Import JS.

(** ** The edge proxy: [handleRequest] of [src/api.js] *)

Module EdgeProxy.

Definition API_URL : string :=
  "https://script.google.com/macros/s/AKfycbx8hiEDN_ncShkzXKoOk79enFAvcH7TP_xV0KmEqtB5dj1hOkL7f4iterT_KT45PHXoGw/exec".
Definition ALLOWED_ORIGINS : list string := ["https://djamchid.github.io"].
Definition MAX_PAYLOAD_SIZE : Z := 1024 * 1024.

(** An inbound request: the method, the query parameters of [request.url]
    in order, the three headers the code reads ([None] when
    [headers.get] answers [null]), and the body, as [request.text()]
    yields it and as [request.json()] does ([None]: it rejects). *)
Record Request : Type := {
  method : string;
  searchParams : list (string * string);
  origin_header : option string;
  content_type : option string;
  content_length : option string;
  body_text : string;
  body_json : option json
}.

(** A call to Upstream, as handed to [fetch]. *)
Record Outbound : Type := {
  out_url : string;
  out_query : list (string * string);
  out_method : string;
  out_headers : list (string * string);
  out_body : option payload
}.

(** What [fetch] resolves to, read with [response.text()]. *)
Record UpstreamResponse : Type := {
  up_status : Z;
  up_text : string
}.

(** The network: [None] when [fetch] rejects. *)
Definition Upstream : Type := Outbound -> option UpstreamResponse.

Record Response : Type := {
  status : Z;
  body : option payload;
  headers : list (string * string)
}.

(** What [handleRequest] does besides computing its response. *)
Inductive event : Type :=
| ReadJson
| ReadText
| Fetch (call : Outbound)
| ConsoleError (label : string).

Definition is_fetch (e : event) : bool :=
  match e with
  | Fetch _ => true
  | _ => false
  end.

Definition is_body_read (e : event) : bool :=
  match e with
  | ReadJson | ReadText => true
  | _ => false
  end.

(** The number of outbound calls in a trace. *)
Definition upstream_calls (t : list event) : nat := length (List.filter is_fetch t).
Definition body_reads (t : list event) : nat := length (List.filter is_body_read t).

(** [ALLOWED_ORIGINS.includes(origin)]: strict equality, so an absent
    header ([null]) is never included. *)
Definition allowed (origin : option string) : bool :=
  match origin with
  | Some o => existsb (String.eqb o) ALLOWED_ORIGINS
  | None => false
  end.

Definition corsHeaders (origin : string) : list (string * string) :=
  [ ("Access-Control-Allow-Origin", origin);
    ("Access-Control-Allow-Methods", "GET, POST, OPTIONS");
    ("Access-Control-Allow-Headers", "Content-Type, X-Requested-With");
    ("Access-Control-Max-Age", "86400") ].

Definition json_headers (origin : string) : list (string * string) :=
  corsHeaders origin ++ [("Content-Type", "application/json")].

Definition error_body (message : string) : option payload :=
  Some (Stringified (JObj [("result", JStr "error"); ("error", JStr message)])).

Definition null_body_status (s : Z) : bool :=
  (s =? 101) || (s =? 204) || (s =? 205) || (s =? 304).

(** [new Response(data, {status, headers})] throws, as the Fetch standard
    has it, on a status outside 200..599 and on a body given with a
    null-body status; [None] is that exception. *)
Definition new_Response (data : option payload) (st : Z)
           (hs : list (string * string)) : option Response :=
  if negb ((200 <=? st) && (st <=? 599)) then None
  else if null_body_status st && (match data with Some _ => true | None => false end)
  then None
  else Some {| status := st; body := data; headers := hs |}.

Definition forbidden : Response :=
  {| status := 403;
     body := error_body "Origine non autorisée";
     headers := [("Content-Type", "application/json")] |}.

Definition preflight (origin : string) : Response :=
  {| status := 204; body := None; headers := corsHeaders origin |}.

Definition server_error (origin : string) : Response :=
  {| status := 500;
     body := error_body "Erreur lors de la communication avec le serveur";
     headers := json_headers origin |}.

Definition payload_too_large (origin : string) : Response :=
  {| status := 413;
     body := error_body "Taille de la requête trop importante";
     headers := json_headers origin |}.

Definition bad_json (origin : string) : Response :=
  {| status := 400;
     body := error_body "Format JSON invalide";
     headers := json_headers origin |}.

Definition method_not_allowed (origin : string) : Response :=
  {| status := 405;
     body := error_body "Méthode non supportée";
     headers := json_headers origin ++ [("Allow", "GET, POST, OPTIONS")] |}.

(** The tail shared by the GET and POST branches: the call to Upstream,
    the relay of its answer, and the [catch] that turns any failure into
    the 500 response. *)
Definition relay (up : Upstream) (origin label : string) (call : Outbound)
  : Response * list event :=
  match up call with
  | None => (server_error origin, [Fetch call; ConsoleError label])
  | Some r =>
      match new_Response (Some (Raw (up_text r))) (up_status r) (json_headers origin) with
      | Some resp => (resp, [Fetch call])
      | None => (server_error origin, [Fetch call; ConsoleError label])
      end
  end.

Definition get_call (req : Request) : Outbound :=
  {| out_url := API_URL;
     out_query := searchParams req;
     out_method := "GET";
     out_headers := [("User-Agent", "FeteVoisinsProxy/1.0")];
     out_body := None |}.

(** [typeof body === 'string' ? body : JSON.stringify(body)]. *)
Definition post_payload (parsed : json) : payload :=
  match parsed with
  | JStr s => Raw s
  | j => Stringified j
  end.

Definition post_call (req : Request) (p : payload) : Outbound :=
  {| out_url := API_URL;
     out_query := [];
     out_method := "POST";
     out_headers :=
       [ ("Content-Type",
          match content_type req with
          | Some ct => if String.eqb ct "" then "application/json" else ct
          | None => "application/json"
          end);
         ("User-Agent", "FeteVoisinsProxy/1.0") ];
     out_body := Some p |}.

(** [parseInt(request.headers.get('Content-Length') || '0')]. *)
Definition declared_length (req : Request) : option Z :=
  parseInt (match content_length req with
            | Some h => if String.eqb h "" then "0" else h
            | None => "0"
            end).

(** [contentType && contentType.includes('application/json')]. *)
Definition is_json_type (req : Request) : bool :=
  match content_type req with
  | Some ct => negb (String.eqb ct "") && includes ct "application/json"
  | None => false
  end.

Definition with_trace (t : list event) (r : Response * list event)
  : Response * list event :=
  (fst r, t ++ snd r).

Definition handleRequest (up : Upstream) (req : Request) : Response * list event :=
  if negb (allowed (origin_header req)) then (forbidden, [])
  else
    let origin := default "" (origin_header req) in
    if String.eqb (method req) "OPTIONS" then (preflight origin, [])
    else if String.eqb (method req) "GET" then
      relay up origin "Erreur lors de la requête GET:" (get_call req)
    else if String.eqb (method req) "POST" then
      if num_gt (declared_length req) MAX_PAYLOAD_SIZE
      then (payload_too_large origin, [])
      else if is_json_type req then
        match body_json req with
        | None => (bad_json origin, [ReadJson])
        | Some parsed =>
            with_trace [ReadJson]
              (relay up origin "Erreur lors de la requête POST:"
                     (post_call req (post_payload parsed)))
        end
      else
        with_trace [ReadText]
          (relay up origin "Erreur lors de la requête POST:"
                 (post_call req (Raw (body_text req))))
    else (method_not_allowed origin, []).

(** [headers.get(name)] on a response built from an object literal. *)
Fixpoint header (name : string) (hs : list (string * string)) : option string :=
  match hs with
  | [] => None
  | (k, v) :: rest => if String.eqb name k then Some v else header name rest
  end.

(** The four CORS headers, [Access-Control-Allow-Origin] reflecting [origin]. *)
Definition carries_cors (origin : string) (r : Response) : Prop :=
  header "Access-Control-Allow-Origin" (headers r) = Some origin
  /\ header "Access-Control-Allow-Methods" (headers r) = Some "GET, POST, OPTIONS"
  /\ header "Access-Control-Allow-Headers" (headers r)
     = Some "Content-Type, X-Requested-With"
  /\ header "Access-Control-Max-Age" (headers r) = Some "86400".

(** The size guard let the request through: the body has been read. *)
Definition passes_size_guard (out : Response * list event) : Prop :=
  body_reads (snd out) = 1%nat.

(** The request is one [handleRequest] hands on to Upstream: accepted
    origin, and a GET, or a POST within the size limit whose body, when
    announced as JSON, parses. *)
Definition forwarded (req : Request) : bool :=
  allowed (origin_header req)
  && (String.eqb (method req) "GET"
      || (String.eqb (method req) "POST"
          && negb (num_gt (declared_length req) MAX_PAYLOAD_SIZE)
          && (negb (is_json_type req)
              || match body_json req with Some _ => true | None => false end))).

(** [contentType || 'application/json']. *)
Definition forwarded_type (req : Request) : string :=
  match content_type req with
  | Some ct => if String.eqb ct "" then "application/json" else ct
  | None => "application/json"
  end.

End EdgeProxy.

(** ** The browser client: [FeteVoisinsApiClient] *)

Module ApiClient.

Definition API_URL : string :=
  "https://script.google.com/macros/s/AKfycbwQQxPHrQxXm4Rx1NItu0Ejcj0BNE032zwrStBU7_zcV40VY0trPwk2CBKZN7gQ5Zp0fA/exec".

(** *** Exceptions, the network, the state *)

Inductive exn : Type :=
| Error (message : string)
| TypeError (message : string).

Definition message_of (e : exn) : string :=
  match e with
  | Error m | TypeError m => m
  end.

(** [s || fallback] on strings. *)
Definition or_else (s fallback : string) : string :=
  if String.eqb s "" then fallback else s.

Record FetchCall : Type := {
  url : string;
  query : list (string * string);
  fetch_method : string;
  fetch_headers : list (string * string);
  mode : string;
  credentials : string;
  fetch_body : option payload
}.

(** A response: its status line, and its text as [JSON.parse] reads it
    (reading the text with [response.text()] is taken to succeed). *)
Record HttpResponse : Type := {
  status : Z;
  statusText : string;
  parsed : option json
}.

Inductive FetchOutcome : Type :=
| Rejected (message : string)
| Resolved (r : HttpResponse).

Definition ok (r : HttpResponse) : bool := (200 <=? status r) && (status r <=? 299).

Inductive event : Type :=
| Fetched (call : FetchCall)
| Dispatched (name : string) (detail : option json)
| ConsoleError (label : string).

(** References to the objects callers hand to the client. *)
Abbreviation loc := nat (only parsing).

(** The client's three fields, the objects of its callers, what the page
    and the network answer, and what has happened so far. *)
Record World : Type := {
  csrfToken : json;
  lastError : json;
  isInitialized : bool;
  heap : gmap loc object;
  location_origin : string;
  network : list FetchCall -> FetchCall -> FetchOutcome;
  trace : list event
}.

Definition fetch_calls (t : list event) : list FetchCall :=
  flat_map (fun e => match e with Fetched c => [c] | _ => [] end) t.

(** The state of a client before [init] has run. *)
Definition constructed (origin : string)
           (net : list FetchCall -> FetchCall -> FetchOutcome)
           (h : gmap loc object) : World :=
  {| csrfToken := JNull; lastError := JNull; isInitialized := false;
     heap := h; location_origin := origin; network := net; trace := [] |}.

(** *** A state-and-exception monad for the methods *)

Inductive Result (A : Type) : Type :=
| Return (a : A)
| Throw (e : exn).
Arguments Return {A} a.
Arguments Throw {A} e.

Definition M (A : Type) : Type := World -> Result A * World.

Definition ret {A} (a : A) : M A := fun w => (Return a, w).
Definition throw {A} (e : exn) : M A := fun w => (Throw e, w).

Definition bind {A B} (m : M A) (k : A -> M B) : M B :=
  fun w =>
    match m w with
    | (Return a, w') => k a w'
    | (Throw e, w') => (Throw e, w')
    end.

Definition try_catch {A} (m : M A) (handler : exn -> M A) : M A :=
  fun w =>
    match m w with
    | (Return a, w') => (Return a, w')
    | (Throw e, w') => handler e w'
    end.

#[export] Instance M_ret : MRet M := @ret.
#[export] Instance M_bind : MBind M := fun A B k m => bind m k.

Definition get : M World := fun w => (Return w, w).

Definition set_csrfToken (v : json) : M unit := fun w =>
  (Return tt,
   {| csrfToken := v; lastError := lastError w; isInitialized := isInitialized w;
      heap := heap w; location_origin := location_origin w;
      network := network w; trace := trace w |}).

Definition set_lastError (v : json) : M unit := fun w =>
  (Return tt,
   {| csrfToken := csrfToken w; lastError := v; isInitialized := isInitialized w;
      heap := heap w; location_origin := location_origin w;
      network := network w; trace := trace w |}).

Definition set_isInitialized (b : bool) : M unit := fun w =>
  (Return tt,
   {| csrfToken := csrfToken w; lastError := lastError w; isInitialized := b;
      heap := heap w; location_origin := location_origin w;
      network := network w; trace := trace w |}).

Definition set_heap (h : gmap loc object) : M unit := fun w =>
  (Return tt,
   {| csrfToken := csrfToken w; lastError := lastError w;
      isInitialized := isInitialized w;
      heap := h; location_origin := location_origin w;
      network := network w; trace := trace w |}).

Definition emit (e : event) : M unit := fun w =>
  (Return tt,
   {| csrfToken := csrfToken w; lastError := lastError w;
      isInitialized := isInitialized w;
      heap := heap w; location_origin := location_origin w;
      network := network w; trace := trace w ++ [e] |}).

(** [await fetch(url, options)]: the call is recorded, the network
    answers it knowing the calls made before. *)
Definition fetch (c : FetchCall) : M HttpResponse := fun w =>
  match network w (fetch_calls (trace w)) c with
  | Rejected m => (Throw (TypeError m), snd (emit (Fetched c) w))
  | Resolved r => (Return r, snd (emit (Fetched c) w))
  end.

(** The caller's object behind a reference. *)
Definition deref (h : gmap loc object) (l : loc) : object := default [] (h !! l).

(** *** [makeRequest] *)

Definition GET_headers : list (string * string) :=
  [("User-Agent", "FeteVoisinsClient/1.0")].
Definition POST_headers : list (string * string) :=
  [("User-Agent", "FeteVoisinsClient/1.0"); ("Content-Type", "application/json")].

(** [if (!params.origin) params.origin = window.location.origin]. *)
Definition with_origin (origin : string) (params : object) : object :=
  if truthy_opt (assoc "origin" params) then params
  else set_prop "origin" (JStr origin) params.

(** [Object.keys(params).forEach(key => url.searchParams.append(key, params[key]))]. *)
Definition to_query (params : object) : list (string * string) :=
  map (fun kv => (fst kv, ToString (snd kv))) params.

(** [method === 'POST' && data]: the object that becomes the body. *)
Definition body_object (method : string) (data : option loc) : option loc :=
  match data with
  | Some l => if String.eqb method "POST" then Some l else None
  | None => None
  end.

(** [data.csrfToken = this.csrfToken; data.origin = window.location.origin]. *)
Definition inject (w : World) (o : object) : object :=
  set_prop "origin" (JStr (location_origin w)) (set_prop "csrfToken" (csrfToken w) o).

(** The POST branch of the options: the caller's object receives the
    token and the origin in place, then is serialized. *)
Definition attach_body (method : string) (data : option loc)
  : M (list (string * string) * option payload) :=
  match body_object method data with
  | Some l =>
      w ← get;
      let o := inject w (deref (heap w) l) in
      set_heap (<[l := o]> (heap w));;
      mret (POST_headers, Some (Stringified (JObj o)))
  | None => mret (GET_headers, None)
  end.

Definition request (method : string) (params : object)
           (hb : list (string * string) * option payload) (w : World) : FetchCall :=
  {| url := API_URL;
     query := to_query (with_origin (location_origin w) params);
     fetch_method := method;
     fetch_headers := fst hb;
     mode := "cors";
     credentials := "omit";
     fetch_body := snd hb |}.

(** [JSON.parse(responseText)] inside its own [try]. *)
Definition parse_body (r : HttpResponse) : M json :=
  match parsed r with
  | Some j => mret j
  | None =>
      emit (ConsoleError "Réponse non-JSON reçue:");;
      throw (Error "Format de réponse invalide")
  end.

(** Reading a property of [null] throws; the wording is the engine's. *)
Definition read (v : json) (k : string) : M (option json) :=
  match v with
  | JNull => throw (TypeError ("Cannot read properties of null (reading '" +:+ k +:+ "')"))
  | _ => mret (prop v k)
  end.

(** Lines 144-151: the token carried by a response replaces the held one. *)
Definition update_token (responseData : json) : M unit :=
  newTok ← read responseData "newCsrfToken";
  if truthy_opt newTok then set_csrfToken (default JNull newTok)
  else
    tok ← read responseData "csrfToken";
    if truthy_opt tok then set_csrfToken (default JNull tok)
    else mret tt.

(** Lines 153-157: an error envelope becomes an exception. *)
Definition check_result (responseData : json) : M unit :=
  result ← read responseData "result";
  if is_string result "error" then
    err ← read responseData "error";
    let last := if truthy_opt err then default JNull err else JStr "Erreur inconnue" in
    set_lastError last;;
    throw (Error (ToString last))
  else mret tt.

(** [makeRequest(method, params, data)] where [params] is an object
    written at the call, as in every call this client makes itself
    ([{ action: 'getData' }], [{}], or none): the write of [origin] into it
    is seen in the query only.  [data] is an object of the caller. *)
Definition makeRequest (method : string) (params : object) (data : option loc)
  : M json :=
  try_catch
    (w ← get;
     hb ← attach_body method data;
     response ← fetch (request method params hb w);
     (if ok response then mret tt
      else throw (Error ("Erreur HTTP: " +:+ Z_toString (status response)
                           +:+ " " +:+ statusText response)));;
     responseData ← parse_body response;
     update_token responseData;;
     check_result responseData;;
     mret responseData)
    (fun error =>
       set_lastError (JStr (or_else (message_of error) "Erreur de communication"));;
       emit (ConsoleError ("Erreur lors de la requête " +:+ method +:+ ":"));;
       throw error).

(** [makeRequest(method, params, data)] where [params] too is an object
    of the caller, at [p]: lines 90-92 write [origin] into that object
    when it has no truthy one, and what follows reads it as it then is. *)
Definition makeRequest_on (method : string) (p : loc) (data : option loc)
  : M json :=
  w ← get;
  let params := deref (heap w) p in
  (if truthy_opt (assoc "origin" params) then mret tt
   else set_heap (<[p := set_prop "origin" (JStr (location_origin w)) params]>
                    (heap w)));;
  makeRequest method (with_origin (location_origin w) params) data.

(** *** [refreshCsrfToken] and [init] *)

Definition refreshCsrfToken : M bool :=
  try_catch
    (w ← get;
     response ← makeRequest "GET" [("origin", JStr (location_origin w))] None;
     if truthy response && truthy_opt (prop response "csrfToken")
     then set_csrfToken (default JNull (prop response "csrfToken"));; mret true
     else throw (Error "Pas de jeton CSRF dans la réponse"))
    (fun error =>
       set_lastError
         (JStr ("Erreur de rafraîchissement du jeton: "
                  +:+ or_else (message_of error) "Erreur inconnue"));;
       emit (ConsoleError "Erreur lors du rafraîchissement du jeton CSRF:");;
       throw error).

Definition init : M bool :=
  try_catch
    (refreshCsrfToken;;
     set_isInitialized true;;
     emit (Dispatched "fete-voisins-api-ready" None);;
     mret true)
    (fun error =>
       let last := or_else (message_of error) "Erreur d'initialisation" in
       set_lastError (JStr last);;
       emit (ConsoleError "Erreur lors de l'initialisation de l'API:");;
       emit (Dispatched "fete-voisins-api-error" (Some (JObj [("error", JStr last)])));;
       mret false).

(** *** [validateFormData] *)

Definition requiredFields : list string :=
  ["nom"; "email"; "categorie"; "detail"; "portions"].
Definition validCategories : list string := ["sale"; "sucre"; "soft"; "alco"].

(** [!data[field]]. *)
Definition missing (data : json) (field : string) : bool :=
  negb (truthy_opt (prop data field)).

Definition missingFields (data : json) : list string :=
  List.filter (missing data) requiredFields.

Definition not_at (c : ascii) : bool := negb (Ascii.eqb c "@").

(** The class [[^\s@]] at the head of [s]: a character that is neither
    white space nor ["@"] starts there. *)
Definition local_char (s : string) : bool :=
  match s with
  | EmptyString => false
  | String c _ => (space_width s =? 0)%nat && not_at c
  end.

(** [[^\s@]*] up to the end of [s]. *)
Fixpoint all_local (s : string) : bool :=
  match s with
  | EmptyString => true
  | String _ rest => local_char s && all_local rest
  end.

(** Some ["."] of [s] has a character after it. *)
Fixpoint dot_inside (s : string) : bool :=
  match s with
  | String "." (String _ _) => true
  | String _ rest => dot_inside rest
  | EmptyString => false
  end.

(** What follows the ["@"]: [[^\s@]+\.[^\s@]+] up to the end. *)
Definition email_domain (s : string) : bool :=
  all_local s
  && match s with
     | String _ rest => dot_inside rest
     | EmptyString => false
     end.

(** [/^[^\s@]+@[^\s@]+\.[^\s@]+$/.test(s)]: [seen] tells whether a
    character of the local part has been read. *)
Fixpoint email_from (seen : bool) (s : string) : bool :=
  match s with
  | EmptyString => false
  | String c rest =>
      if Ascii.eqb c "@" then seen && email_domain rest
      else local_char s && email_from true rest
  end.

Definition emailRegex_test (s : string) : bool := email_from false s.

(** [/^[0-9]{10}$/.test(s)]. *)
Definition phoneRegex_test (s : string) : bool :=
  (String.length s =? 10)%nat && all_chars is_digit s.

(** [String.prototype.trim]: what is left of [s] is dropped as soon as
    it is white space only. *)
Fixpoint trim_end (s : string) : string :=
  match s with
  | EmptyString => ""
  | String c rest =>
      if String.eqb (trim_start s) "" then "" else String c (trim_end rest)
  end.

Definition trim (s : string) : string := trim_end (trim_start s).

(** [validCategories.includes(v)]: strict equality with one of the strings. *)
Definition category_ok (v : option json) : bool :=
  match v with
  | Some (JStr s) => existsb (String.eqb s) validCategories
  | _ => false
  end.

(** [isNaN(n) || n < lo || n > hi]. *)
Definition out_of_range (n : option Z) (lo hi : Z) : bool :=
  isNaN n || num_lt n lo || num_gt n hi.

Definition check_telephone (v : option json) : Result bool :=
  match v with
  | Some (JStr s) =>
      if negb (String.eqb s "") && negb (String.eqb (trim s) "") then
        if phoneRegex_test s then Return true
        else Throw (Error "Format de téléphone invalide (10 chiffres attendus)")
      else Return true
  | Some j =>
      if truthy j then Throw (TypeError "data.telephone.trim is not a function")
      else Return true
  | None => Return true
  end.

Definition validateFormData (data : json) : Result bool :=
  if negb (truthy data) then Throw (Error "Aucune donnée fournie")
  else if negb (length (missingFields data) =? 0)%nat then
    Throw (Error ("Champs obligatoires manquants: " +:+ join ", " (missingFields data)))
  else if negb (emailRegex_test (ToString_opt (prop data "email"))) then
    Throw (Error "Format d'email invalide")
  else if negb (category_ok (prop data "categorie")) then
    Throw (Error "Catégorie invalide")
  else if out_of_range (parseInt (ToString_opt (prop data "nbPersonnes"))) 1 20 then
    Throw (Error "Nombre de personnes invalide (doit être entre 1 et 20)")
  else if out_of_range (parseInt (ToString_opt (prop data "portions"))) 1 100 then
    Throw (Error "Nombre de portions invalide (doit être entre 1 et 100)")
  else check_telephone (prop data "telephone").

(** *** [submitContribution] *)

(** The argument as [validateFormData] reads it. *)
Definition view (h : gmap loc object) (formData : option loc) : json :=
  match formData with
  | Some l => JObj (deref h l)
  | None => JNull
  end.

Definition lift {A} (r : Result A) : M A := fun w => (r, w).

(** [response.error && response.error.includes('jeton invalide')]: the
    method exists on strings and on arrays only. *)
Definition token_rejected (response : json) : M bool :=
  match prop response "error" with
  | Some (JStr s) => mret (negb (String.eqb s "") && includes s "jeton invalide")
  | Some (JArr items) =>
      mret (existsb (fun x => match x with
                              | JStr s => String.eqb s "jeton invalide"
                              | _ => false
                              end) items)
  | Some j =>
      if truthy j then throw (TypeError "response.error.includes is not a function")
      else mret false
  | None => mret false
  end.

(** The [try] block ends either with a value or with the promise of the
    second [makeRequest], which is returned without [await]: its failure
    is not seen by the [catch]. *)
Inductive tail : Type :=
| Done (response : json)
| Resubmit.

Definition submitContribution (formData : option loc) : M json :=
  t ← try_catch
        (w ← get;
         (if isInitialized w then mret false else init);;
         w ← get;
         lift (validateFormData (view (heap w) formData));;
         response ← makeRequest "POST" [] formData;
         again ← token_rejected response;
         if again : bool then refreshCsrfToken;; mret Resubmit
         else mret (Done response))
        (fun error =>
           set_lastError
             (JStr ("Erreur lors de l'envoi de la contribution: "
                      +:+ or_else (message_of error) "Erreur inconnue"));;
           emit (ConsoleError "Erreur lors de l'envoi de la contribution:");;
           throw error);
  match t with
  | Done response => mret response
  | Resubmit => makeRequest "POST" [] formData
  end.

Definition getLastError : M json := w ← get; mret (lastError w).

(** *** Notions used to state the properties *)

(** The call [makeRequest method params data] hands to [fetch] in [w]. *)
Definition issued (method : string) (params : object) (data : option loc)
           (w : World) : FetchCall :=
  request method params
          match body_object method data with
          | Some l => (POST_headers,
                       Some (Stringified (JObj (inject w (deref (heap w) l)))))
          | None => (GET_headers, None)
          end
          w.

(** What the network answers to it. *)
Definition answer (method : string) (params : object) (data : option loc)
           (w : World) : FetchOutcome :=
  network w (fetch_calls (trace w)) (issued method params data w).

(** The call of [refreshCsrfToken] and its answer. *)
Definition refresh_answer (w : World) : FetchOutcome :=
  answer "GET" [("origin", JStr (location_origin w))] None w.

(** A 2xx response whose text parses to [j]. *)
Definition succeeds_with (a : FetchOutcome) (j : json) : Prop :=
  exists r, a = Resolved r /\ ok r = true /\ parsed r = Some j.

(** The body is an error envelope: [result === 'error']. *)
Definition error_envelope (j : json) : bool := is_string (prop j "result") "error".

Definition failed {A} (r : Result A) : Prop := exists e, r = Throw e.

(** Lines 144-151 as a function of the body and of the token held before. *)
Definition token_after (j : json) (held : json) : json :=
  if truthy_opt (prop j "newCsrfToken") then default JNull (prop j "newCsrfToken")
  else if truthy_opt (prop j "csrfToken") then default JNull (prop j "csrfToken")
  else held.

(** The caller's objects once [makeRequest] has prepared its options. *)
Definition heap_after (method : string) (data : option loc) (w : World)
  : gmap loc object :=
  match body_object method data with
  | Some l => <[l := inject w (deref (heap w) l)]> (heap w)
  | None => heap w
  end.

(** The combined message of the required-fields rule. *)
Definition missing_message (data : json) : string :=
  "Champs obligatoires manquants: " +:+ join ", " (missingFields data).

(** The exception an error envelope turns into. *)
Definition envelope_error (j : json) : exn :=
  Error (ToString (if truthy_opt (prop j "error")
                   then default JNull (prop j "error")
                   else JStr "Erreur inconnue")).

(** *** [getContributions] *)

(** [Array.isArray(v)] and the elements of the array. *)
Definition is_array (v : option json) : bool :=
  match v with
  | Some (JArr _) => true
  | _ => false
  end.

Definition array_items (v : option json) : list json :=
  match v with
  | Some (JArr items) => items
  | _ => []
  end.

Definition getContributions : M (list json) :=
  try_catch
    (w ← get;
     (if isInitialized w then mret false else init);;
     response ← makeRequest "GET" [("action", JStr "getData")] None;
     if truthy response
        && is_string (prop response "result") "success"
        && is_array (prop response "data")
     then mret (array_items (prop response "data"))
     else throw (Error "Format de données invalide"))
    (fun error =>
       set_lastError
         (JStr ("Erreur lors de la récupération des contributions: "
                  +:+ or_else (message_of error) "Erreur inconnue"));;
       emit (ConsoleError "Erreur lors de la récupération des contributions:");;
       throw error).

(** *** Further notions used to state properties *)

(** [url.searchParams.get(name)]. *)
Fixpoint query_param (name : string) (q : list (string * string)) : option string :=
  match q with
  | [] => None
  | (k, v) :: rest => if String.eqb name k then Some v else query_param name rest
  end.

(** The calls of a trace that are POSTs. *)
Definition posts (calls : list FetchCall) : list FetchCall :=
  List.filter (fun c => String.eqb (fetch_method c) "POST") calls.

(** The world in which [submitContribution] and [getContributions]
    start their work: after [init], when the client was not initialized. *)
Definition after_lazy_init (w : World) : World :=
  if isInitialized w then w else snd (init w).

(** The parameters [refreshCsrfToken] passes to [makeRequest]. *)
Definition refresh_params (w : World) : object := [("origin", JStr (location_origin w))].

(** The five ways a call can be answered. *)
Inductive answered (a : FetchOutcome) : Prop :=
| by_rejection (m : string) : a = Rejected m -> answered a
| by_status (r : HttpResponse) : a = Resolved r -> ok r = false -> answered a
| by_garbage (r : HttpResponse) :
    a = Resolved r -> ok r = true -> parsed r = None -> answered a
| by_null (r : HttpResponse) :
    a = Resolved r -> ok r = true -> parsed r = Some JNull -> answered a
| by_value (j : json) : succeeds_with a j -> j <> JNull -> answered a.

(** The [catch] block of [submitContribution]. *)
Definition submit_catch (error : exn) : M tail :=
  set_lastError
    (JStr ("Erreur lors de l'envoi de la contribution: "
             +:+ or_else (message_of error) "Erreur inconnue"));;
  emit (ConsoleError "Erreur lors de l'envoi de la contribution:");;
  throw error.

(** The [catch] block of [getContributions]. *)
Definition contributions_catch (error : exn) : M (list json) :=
  set_lastError
    (JStr ("Erreur lors de la récupération des contributions: "
             +:+ or_else (message_of error) "Erreur inconnue"));;
  emit (ConsoleError "Erreur lors de la récupération des contributions:");;
  throw error.

(** [submitContribution] failing with [e] from the state [w]. *)
Definition submit_fails (e : exn) (w : World) : Result json * World :=
  (Throw e, snd (submit_catch e w)).

(** The parameters [getContributions] passes to [makeRequest]. *)
Definition contributions_params : object := [("action", JStr "getData")].

(** [response && response.result === 'success' && Array.isArray(response.data)]. *)
Definition contributions_shape (response : json) : bool :=
  truthy response && is_string (prop response "result") "success"
  && is_array (prop response "data").

(** The client holds a token as soon as it is initialized. *)
Definition token_invariant (w : World) : Prop :=
  isInitialized w = true -> truthy (csrfToken w) = true.

(** Upstream issues the token [v]: a 2xx JSON body that is no error
    envelope and has the truthy [csrfToken] [v]. *)
Definition issues_token (a : FetchOutcome) (v : json) : Prop :=
  exists j, succeeds_with a j /\ error_envelope j = false
            /\ prop j "csrfToken" = Some v /\ truthy v = true.

(** From [w] to [w'] the client made at most [n] calls, at most [p] of
    them POSTs, kept its page and network, replaced its token by truthy
    values only, and became initialized only while holding a token. *)
Definition evolves (n p : nat) (w w' : World) : Prop :=
  network w' = network w
  /\ location_origin w' = location_origin w
  /\ (csrfToken w' = csrfToken w \/ truthy (csrfToken w') = true)
  /\ (isInitialized w' = isInitialized w
      \/ (isInitialized w' = true /\ truthy (csrfToken w') = true))
  /\ exists cs, fetch_calls (trace w') = fetch_calls (trace w) ++ cs
                /\ (length cs <= n)%nat /\ (length (posts cs) <= p)%nat.

(** The states a page can bring its client to: a fresh client, then any
    sequence of calls to its methods, the page changing its own objects
    as it likes in between. *)
Inductive reachable : World -> Prop :=
| reach_new origin net h : reachable (constructed origin net h)
| reach_page w h : reachable w -> reachable (snd (set_heap h w))
| reach_init w : reachable w -> reachable (snd (init w))
| reach_refresh w : reachable w -> reachable (snd (refreshCsrfToken w))
| reach_request w method params data :
    reachable w -> reachable (snd (makeRequest method params data w))
| reach_contributions w : reachable w -> reachable (snd (getContributions w))
| reach_submit w formData :
    reachable w -> reachable (snd (submitContribution formData w)).

(** The computation [m], run in [w], evolves the client within [n], [p]. *)
Definition runs {A} (n p : nat) (m : M A) (w : World) : Prop :=
  evolves n p w (snd (m w)).

End ApiClient.

(** ** Sample inputs *)

Module Samples.
Import EdgeProxy.

Definition site : string := "https://djamchid.github.io".

(** An Upstream that answers every call with an empty JSON array. *)
Definition echo : Upstream :=
  fun _ => Some {| up_status := 200; up_text := "[]" |}.

Definition post_request (ctype clen : option string) (text : string)
           (parsed : option json) : Request :=
  {| method := "POST"; searchParams := []; origin_header := Some site;
     content_type := ctype; content_length := clen;
     body_text := text; body_json := parsed |}.

Definition foreign_request : Request :=
  {| method := "GET"; searchParams := [("action", "getData")];
     origin_header := Some "https://example.org";
     content_type := None; content_length := None;
     body_text := ""; body_json := None |}.

(** An Upstream that cannot be reached. *)
Definition down : Upstream := fun _ => None.

(** An Upstream that answers every call with the same status and text. *)
Definition answers (st : Z) (text : string) : Upstream :=
  fun _ => Some {| up_status := st; up_text := text |}.

Definition request_with (m : string) (q : list (string * string)) : Request :=
  {| method := m; searchParams := q; origin_header := Some site;
     content_type := None; content_length := None;
     body_text := ""; body_json := None |}.

End Samples.

(** ** Sample clients *)

Module ClientSamples.
Import ApiClient.

Definition page : string := "https://djamchid.github.io".

Definition form : object :=
  [ ("nom", JStr "Ada"); ("email", JStr "ada@example.org");
    ("categorie", JStr "sucre"); ("detail", JStr "tarte aux pommes");
    ("portions", JStr "8"); ("nbPersonnes", JStr "2") ].

Definition replies (j : json) : FetchOutcome :=
  Resolved {| status := 200; statusText := "OK"; parsed := Some j |}.

(** A client after a successful [init], holding the token [held]; the
    caller's form is the object at reference 0. *)
Definition ready (held : json)
           (net : list FetchCall -> FetchCall -> FetchOutcome) : World :=
  {| csrfToken := held; lastError := JNull; isInitialized := true;
     heap := {[ 0%nat := form ]}; location_origin := page;
     network := net; trace := [] |}.

(** Upstream rejects the token in its usual error envelope, every time. *)
Definition stale_envelope : json :=
  JObj [("result", JStr "error"); ("error", JStr "jeton invalide")].
Definition always_stale : list FetchCall -> FetchCall -> FetchOutcome :=
  fun _ _ => replies stale_envelope.

(** An Upstream that reports the stale token outside an error envelope,
    issues a fresh token on GET, then accepts the submission. *)
Definition bare_rejection : list FetchCall -> FetchCall -> FetchOutcome :=
  fun before call =>
    if String.eqb (fetch_method call) "GET"
    then replies (JObj [("csrfToken", JStr "fresh")])
    else match before with
         | [] => replies (JObj [("error", JStr "jeton invalide")])
         | _ => replies (JObj [("result", JStr "success")])
         end.

(** The same, except that the second submission is rejected in an error
    envelope. *)
Definition rejected_again : list FetchCall -> FetchCall -> FetchOutcome :=
  fun before call =>
    if String.eqb (fetch_method call) "GET"
    then replies (JObj [("csrfToken", JStr "fresh")])
    else match before with
         | [] => replies (JObj [("error", JStr "jeton invalide")])
         | _ => replies stale_envelope
         end.

(** A refresh answered with a rotated token only. *)
Definition rotated_only : list FetchCall -> FetchCall -> FetchOutcome :=
  fun _ _ => replies (JObj [("newCsrfToken", JStr "rotated")]).

(** A response whose [newCsrfToken] is the empty string. *)
Definition empty_new_token : json :=
  JObj [("newCsrfToken", JStr ""); ("csrfToken", JStr "fallback")].

Definition both_tokens : json :=
  JObj [("csrfToken", JStr "plain"); ("newCsrfToken", JStr "rotated")].

(** A client whose every call is answered the same way. *)
Definition answering (a : FetchOutcome) : World :=
  ready (JStr "held") (fun _ _ => a).

Definition unavailable : FetchOutcome :=
  Resolved {| status := 503; statusText := "Service Unavailable"; parsed := None |}.

Definition html_page : FetchOutcome :=
  Resolved {| status := 200; statusText := "OK"; parsed := None |}.

(** An error envelope that carries a rotated token. *)
Definition rotating_error : json :=
  JObj [("result", JStr "error"); ("error", JStr "quota");
        ("newCsrfToken", JStr "rotated")].

End ClientSamples.
Example parseInt_hex : parseInt "  0x1F" = Some 31.
Proof. reflexivity. Qed.

Example parseInt_tail : parseInt "-12px" = Some (-12).
Proof. reflexivity. Qed.

Example parseInt_nan : parseInt "abc" = None.
Proof. reflexivity. Qed.

Example decimal_1048577 : decimal 1048577 = "1048577".
Proof. reflexivity. Qed.

Example ToString_array :
  ToString (JArr [JNum 1; JNull; JStr "a"; JArr [JNum (-2); JBool true]]) = "1,,a,-2,true".
Proof. reflexivity. Qed.

(** ** Numerals: [parseInt] reads back what [decimal] writes *)

Section Numerals.

Lemma dec_digit_digit_char (d : N) :
  (d < 10)%N -> dec_digit (digit_char d) = Some d.
Proof.
  intros H.
  rewrite <- (N2Nat.id d).
  assert (Hk : (N.to_nat d < 10)%nat) by lia.
  generalize dependent (N.to_nat d). clear. intros k Hk.
  do 10 (destruct k as [|k]; [reflexivity|]).
  lia.
Qed.

Lemma is_digit_digit_char (d : N) : (d < 10)%N -> is_digit (digit_char d) = true.
Proof.
  intros H. unfold is_digit. now rewrite dec_digit_digit_char.
Qed.

(** Reading the numeral of [n] in front of [rest] shifts the accumulator
    by the digits of [n]. *)
Lemma digits_decimal_go (fuel : nat) :
  forall (n : N) (rest : string) (a : option N),
    (n < 2 ^ N.of_nat fuel)%N ->
    exists k : N,
      digits 10 dec_digit (decimal_go fuel n rest) a
      = digits 10 dec_digit rest (Some (default 0 a * 10 ^ k + n)%N).
Proof.
  induction fuel as [|fuel IH]; intros n rest a Hn.
  - assert (n = 0%N) as -> by (simpl in Hn; lia).
    exists 1%N. simpl. destruct a; simpl; f_equal; f_equal; lia.
  - cbn [decimal_go]. destruct (N.ltb_spec n 10) as [Hlt | Hge].
    + exists 1%N. cbn [digits].
      rewrite N.mod_small by assumption.
      rewrite dec_digit_digit_char by assumption.
      destruct a; simpl; f_equal; f_equal; lia.
    + destruct (IH (n / 10)%N (String (digit_char (n mod 10)) rest) a) as [k Hk].
      { rewrite Nat2N.inj_succ, N.pow_succ_r' in Hn.
        apply N.Div0.div_lt_upper_bound. lia. }
      exists (k + 1)%N. rewrite Hk. cbn [digits].
      rewrite dec_digit_digit_char by (apply N.mod_lt; lia).
      f_equal. f_equal. cbn [default].
      rewrite N.pow_add_r, N.pow_1_r.
      pose proof (N.div_mod n 10). lia.
Qed.

Lemma size_nat_bound (n : N) : (n < 2 ^ N.of_nat (N.size_nat n))%N.
Proof.
  destruct n as [|p]; [reflexivity|].
  cbn [N.size_nat].
  induction p as [p IH | p IH |]; cbn [Pos.size_nat];
    rewrite ?Nat2N.inj_succ, ?N.pow_succ_r'; lia.
Qed.

Lemma digits_decimal (n : N) : digits 10 dec_digit (decimal n) None = Some n.
Proof.
  unfold decimal.
  destruct (digits_decimal_go (N.size_nat n) n "" None (size_nat_bound n)) as [k ->].
  reflexivity.
Qed.

Lemma decimal_go_all_digits (fuel : nat) :
  forall (n : N) (rest : string),
    all_chars is_digit rest = true ->
    all_chars is_digit (decimal_go fuel n rest) = true.
Proof.
  induction fuel as [|fuel IH]; intros n rest Hrest; cbn [decimal_go].
  - cbn [all_chars]. rewrite is_digit_digit_char, Hrest; [reflexivity|].
    apply N.mod_lt; lia.
  - assert (Hd : all_chars is_digit (String (digit_char (n mod 10)) rest) = true).
    { cbn [all_chars]. rewrite is_digit_digit_char, Hrest; [reflexivity|].
      apply N.mod_lt; lia. }
    destruct (n <? 10)%N; [assumption | now apply IH].
Qed.

Lemma decimal_go_nonempty (fuel : nat) (n : N) (rest : string) :
  decimal_go fuel n rest <> "".
Proof.
  revert n rest. induction fuel as [|fuel IH]; intros n rest; cbn [decimal_go].
  - discriminate.
  - destruct (n <? 10)%N; [discriminate | apply IH].
Qed.

(** A digit is no white space, no sign and no radix letter. *)
Lemma is_digit_range (c : ascii) :
  is_digit c = true -> (48 <= N_of_ascii c <= 57)%N.
Proof.
  unfold is_digit, dec_digit.
  destruct (N.leb_spec 48 (N_of_ascii c)), (N.leb_spec (N_of_ascii c) 57);
    cbn; intros; try discriminate; lia.
Qed.

Lemma eqb_outside (c c' : ascii) :
  (48 <= N_of_ascii c <= 57)%N ->
  (N_of_ascii c' < 48 \/ 57 < N_of_ascii c')%N ->
  Ascii.eqb c c' = false.
Proof.
  intros Hc Hc'. apply Ascii.eqb_neq. intros ->. lia.
Qed.

(** The printable ASCII characters start no white space. *)
Lemma space_width_ascii (c : ascii) (s : string) :
  (33 <= N_of_ascii c < 194)%N -> space_width (String c s) = 0%nat.
Proof.
  intros Hc. unfold space_width.
  assert (H1 : is_space c = false).
  { unfold is_space. cbv zeta.
    destruct (N.leb_spec 9 (N_of_ascii c)), (N.leb_spec (N_of_ascii c) 13),
      (N.eqb_spec (N_of_ascii c) 32); cbn; try reflexivity; lia. }
  rewrite H1. destruct s as [|c2 s]; [reflexivity|].
  assert (H2 : is_space2 c c2 = false).
  { unfold is_space2. destruct (N.eqb_spec (N_of_ascii c) 194); [lia|reflexivity]. }
  rewrite H2. destruct s as [|c3 s]; [reflexivity|].
  assert (H3 : is_space3 c c2 c3 = false).
  { unfold is_space3. cbv zeta.
    destruct (N.eqb_spec (N_of_ascii c) 225); [lia|].
    destruct (N.eqb_spec (N_of_ascii c) 226); [lia|].
    destruct (N.eqb_spec (N_of_ascii c) 227); [lia|].
    destruct (N.eqb_spec (N_of_ascii c) 239); [lia|]. reflexivity. }
  now rewrite H3.
Qed.

(** [trim_start] stops where no white space starts. *)
Lemma trim_start_stops (s : string) :
  space_width s = 0%nat -> trim_start s = s.
Proof.
  destruct s as [|c1 [|c2 [|c3 s]]]; cbn [space_width trim_start];
    try reflexivity.
  - destruct (is_space c1); [discriminate|reflexivity].
  - destruct (is_space c1); [discriminate|].
    destruct (is_space2 c1 c2); [discriminate|reflexivity].
  - destruct (is_space c1); [discriminate|].
    destruct (is_space2 c1 c2); [discriminate|].
    destruct (is_space3 c1 c2 c3); [discriminate|reflexivity].
Qed.

(** On a non-empty string of digits [parseInt] is the decimal reading. *)
Lemma parseInt_digits (s : string) :
  s <> "" -> all_chars is_digit s = true ->
  parseInt s = option_map Z.of_N (digits 10 dec_digit s None).
Proof.
  intros Hne Hall. destruct s as [|c s]; [congruence|]. clear Hne.
  cbn [all_chars] in Hall. apply andb_prop in Hall as [Hc Hs].
  pose proof (is_digit_range c Hc) as Rc.
  unfold parseInt.
  rewrite (trim_start_stops (String c s)) by (apply space_width_ascii; lia).
  cbn [strip_sign].
  rewrite (eqb_outside c "-"), (eqb_outside c "+") by (assumption || (cbn; lia)).
  assert (Hu : unsigned_int (String c s) = digits 10 dec_digit (String c s) None).
  { unfold unsigned_int. destruct s as [|c1 s]; [reflexivity|].
    cbn [all_chars] in Hs. apply andb_prop in Hs as [Hc1 _].
    pose proof (is_digit_range c1 Hc1) as Rc1.
    rewrite (eqb_outside c1 "x"), (eqb_outside c1 "X") by (assumption || (cbn; lia)).
    now rewrite andb_false_r. }
  rewrite Hu. destruct (digits 10 dec_digit (String c s) None); reflexivity.
Qed.

Lemma parseInt_decimal (n : N) : parseInt (decimal n) = Some (Z.of_N n).
Proof.
  rewrite parseInt_digits.
  - now rewrite digits_decimal.
  - apply decimal_go_nonempty.
  - now apply decimal_go_all_digits.
Qed.

End Numerals.

(** ** Properties of the edge proxy *)

Module ProxyFacts.
Import EdgeProxy Samples.

Lemma allowed_In (o : option string) :
  allowed o = true <-> exists s, o = Some s /\ In s ALLOWED_ORIGINS.
Proof.
  destruct o as [s|]; cbn.
  - rewrite orb_false_r, String.eqb_eq. split.
    + intros ->. eauto.
    + intros (s' & [= <-] & [<- | []]). reflexivity.
  - split; [discriminate | intros (s & [=] & _)].
Qed.

Lemma not_allowed (o : option string) :
  (forall s, o = Some s -> ~ In s ALLOWED_ORIGINS) -> allowed o = false.
Proof.
  intros H. destruct (allowed o) eqn:E; [|reflexivity].
  apply allowed_In in E as (s & Hs & Hin). destruct (H s Hs Hin).
Qed.

(** Every response built after the origin check carries the CORS set. *)
Lemma new_Response_headers data st hs r :
  new_Response data st hs = Some r -> headers r = hs.
Proof.
  unfold new_Response. repeat case_match; intros [= <-]; reflexivity.
Qed.

Lemma relay_headers up origin label call :
  headers (fst (relay up origin label call)) = json_headers origin.
Proof.
  unfold relay. destruct (up call) as [r|]; [|reflexivity].
  destruct (new_Response _ _ _) eqn:E; [|reflexivity].
  apply new_Response_headers in E. exact E.
Qed.

Lemma relay_trace up origin label call :
  exists rest, snd (relay up origin label call) = Fetch call :: rest
               /\ upstream_calls rest = 0%nat /\ body_reads rest = 0%nat.
Proof.
  unfold relay. destruct (up call) as [r|].
  - destruct (new_Response _ _ _); eexists; split; reflexivity || (split; reflexivity).
  - eexists; split; [reflexivity | split; reflexivity].
Qed.

(** C4: a request whose [Origin] header is not in the allow-list (an
    absent header included) is answered 403 with the JSON body
    [{result:"error", error:"Origine non autorisée"}], and no call to
    Upstream is made. *)
Theorem origin_rejected (up : Upstream) (req : Request) :
  (forall o, origin_header req = Some o -> ~ In o ALLOWED_ORIGINS) ->
  status (fst (handleRequest up req)) = 403
  /\ body (fst (handleRequest up req))
     = Some (Stringified (JObj [("result", JStr "error");
                                ("error", JStr "Origine non autorisée")]))
  /\ upstream_calls (snd (handleRequest up req)) = 0%nat.
Proof.
  intros H. unfold handleRequest. rewrite (not_allowed _ H). cbn.
  repeat split.
Qed.

Lemma origin_rejected_witness :
  (forall o, origin_header foreign_request = Some o -> ~ In o ALLOWED_ORIGINS)
  /\ status (fst (handleRequest echo foreign_request)) = 403
  /\ body (fst (handleRequest echo foreign_request))
     = Some (Stringified (JObj [("result", JStr "error");
                                ("error", JStr "Origine non autorisée")]))
  /\ upstream_calls (snd (handleRequest echo foreign_request)) = 0%nat.
Proof.
  assert (H : forall o, origin_header foreign_request = Some o
                        -> ~ In o ALLOWED_ORIGINS).
  { intros o [= <-] [E | []]. discriminate E. }
  split; [exact H | exact (origin_rejected echo foreign_request H)].
Defined.

(** C2, as stated, fails: the 403 answer to a request from a foreign
    origin has no [Access-Control-Allow-Origin] header (nor any other of
    the CORS set). *)
Lemma cors_absent_on_rejection :
  origin_header foreign_request = Some "https://example.org"
  /\ status (fst (handleRequest echo foreign_request)) = 403
  /\ header "Access-Control-Allow-Origin"
            (headers (fst (handleRequest echo foreign_request))) = None
  /\ ~ carries_cors "https://example.org" (fst (handleRequest echo foreign_request)).
Proof.
  repeat split. intros [E _]. discriminate E.
Qed.

(** What the rejection carries instead: the content type alone. *)
Lemma forbidden_headers (up : Upstream) (req : Request) :
  allowed (origin_header req) = false ->
  headers (fst (handleRequest up req)) = [("Content-Type", "application/json")].
Proof.
  intros H. unfold handleRequest. rewrite H. reflexivity.
Qed.

(** C2 (amended): for a request whose origin is in the allow-list, every
    response of [handleRequest] (preflight, relayed answer, 400, 405, 413,
    500) carries the four CORS headers, [Access-Control-Allow-Origin]
    being the request's own origin. *)
Theorem cors_on_validated_origin (up : Upstream) (req : Request) :
  allowed (origin_header req) = true ->
  exists o, origin_header req = Some o
            /\ carries_cors o (fst (handleRequest up req)).
Proof.
  intros H. destruct (origin_header req) as [o|] eqn:Ho; [|discriminate H].
  exists o. split; [reflexivity|].
  unfold handleRequest, carries_cors. rewrite Ho, H. cbn [negb default].
  repeat case_match; unfold with_trace; cbn [fst];
    rewrite ?relay_headers; cbn; repeat split; reflexivity.
Qed.

Lemma cors_on_validated_origin_witness :
  allowed (origin_header (post_request None None "x" None)) = true
  /\ exists o, origin_header (post_request None None "x" None) = Some o
               /\ carries_cors o (fst (handleRequest echo (post_request None None "x" None))).
Proof.
  split; [reflexivity|].
  apply (cors_on_validated_origin echo (post_request None None "x" None)).
  reflexivity.
Defined.

(** *** The size guard *)

Lemma decimal_not_empty (n : N) : String.eqb (decimal n) "" = false.
Proof.
  apply String.eqb_neq, decimal_go_nonempty.
Qed.

(** What the POST branch does once the origin is accepted. *)
Lemma handleRequest_post (up : Upstream) (req : Request) (o : string) :
  origin_header req = Some o -> allowed (Some o) = true -> method req = "POST" ->
  handleRequest up req =
    if num_gt (declared_length req) MAX_PAYLOAD_SIZE
    then (payload_too_large o, [])
    else if is_json_type req then
      match body_json req with
      | None => (bad_json o, [ReadJson])
      | Some parsed =>
          with_trace [ReadJson]
            (relay up o "Erreur lors de la requête POST:"
                   (post_call req (post_payload parsed)))
      end
    else
      with_trace [ReadText]
        (relay up o "Erreur lors de la requête POST:"
               (post_call req (Raw (body_text req)))).
Proof.
  intros Ho Ha Hm. unfold handleRequest. rewrite Ho, Ha, Hm. reflexivity.
Qed.

Lemma read_then_relay_trace up o label call (e : event) :
  is_body_read e = true -> is_fetch e = false ->
  body_reads (snd (with_trace [e] (relay up o label call))) = 1%nat
  /\ upstream_calls (snd (with_trace [e] (relay up o label call))) = 1%nat.
Proof.
  intros He Hf. unfold with_trace. cbn [snd].
  destruct (relay_trace up o label call) as (rest & -> & Hu & Hb).
  unfold body_reads, upstream_calls in *. cbn.
  rewrite He, Hf. cbn. rewrite Hu, Hb. split; reflexivity.
Qed.

Lemma guard_passed (up : Upstream) (req : Request) (o : string) :
  origin_header req = Some o -> allowed (Some o) = true -> method req = "POST" ->
  num_gt (declared_length req) MAX_PAYLOAD_SIZE = false ->
  passes_size_guard (handleRequest up req).
Proof.
  intros Ho Ha Hm Hg. rewrite (handleRequest_post up req o Ho Ha Hm), Hg.
  unfold passes_size_guard.
  destruct (is_json_type req); [destruct (body_json req)|];
    try reflexivity; now apply read_then_relay_trace.
Qed.

(** C5: a POST from an accepted origin that declares a [Content-Length]
    above 1 MiB (1048576) is answered 413, its body is not read and no
    call to Upstream is made; one that declares at most 1 MiB passes the
    size guard. *)
Theorem declared_length_guard (up : Upstream) (req : Request) (n : N) :
  allowed (origin_header req) = true ->
  method req = "POST" ->
  content_length req = Some (decimal n) ->
  ((1048576 < n)%N ->
     status (fst (handleRequest up req)) = 413
     /\ body_reads (snd (handleRequest up req)) = 0%nat
     /\ upstream_calls (snd (handleRequest up req)) = 0%nat)
  /\ ((n <= 1048576)%N -> passes_size_guard (handleRequest up req)).
Proof.
  intros Ha Hm Hl.
  destruct (origin_header req) as [o|] eqn:Ho; [|discriminate Ha].
  assert (Hd : declared_length req = Some (Z.of_N n)).
  { unfold declared_length. rewrite Hl, decimal_not_empty. apply parseInt_decimal. }
  split; intros Hn.
  - rewrite (handleRequest_post up req o Ho Ha Hm), Hd.
    cbn [num_gt]. unfold MAX_PAYLOAD_SIZE.
    destruct (Z.ltb_spec (1024 * 1024) (Z.of_N n)); [|lia].
    repeat split.
  - apply (guard_passed up req o Ho Ha Hm). rewrite Hd.
    cbn [num_gt]. unfold MAX_PAYLOAD_SIZE.
    destruct (Z.ltb_spec (1024 * 1024) (Z.of_N n)); [lia | reflexivity].
Qed.

Lemma declared_length_guard_witness :
  let req := post_request (Some "application/json") (Some (decimal 1048577)) "[]"
                          (Some (JArr [])) in
  allowed (origin_header req) = true
  /\ method req = "POST"
  /\ content_length req = Some (decimal 1048577)
  /\ (((1048576 < 1048577)%N ->
         status (fst (handleRequest echo req)) = 413
         /\ body_reads (snd (handleRequest echo req)) = 0%nat
         /\ upstream_calls (snd (handleRequest echo req)) = 0%nat)
      /\ ((1048577 <= 1048576)%N -> passes_size_guard (handleRequest echo req))).
Proof.
  intros req. repeat (split; [reflexivity|]).
  apply (declared_length_guard echo req 1048577); reflexivity.
Defined.

(** C10: in the POST branch the guard compares
    [parseInt(Content-Length || '0')] with 1048576.  An absent header
    counts as 0 and a header that is no number gives [NaN]: both pass,
    whatever the body is; the 413 response is produced exactly when
    [parseInt] of the declared value exceeds 1048576. *)
Theorem size_guard_exact (up : Upstream) (req : Request) (o : string) :
  origin_header req = Some o -> allowed (Some o) = true -> method req = "POST" ->
  (content_length req = None ->
     declared_length req = Some 0 /\ passes_size_guard (handleRequest up req))
  /\ (forall h, content_length req = Some h -> parseInt h = None ->
        passes_size_guard (handleRequest up req))
  /\ (handleRequest up req = (payload_too_large o, [])
      <-> exists h z, content_length req = Some h
                      /\ parseInt h = Some z /\ 1048576 < z)
  /\ (passes_size_guard (handleRequest up req)
      <-> ~ exists h z, content_length req = Some h
                        /\ parseInt h = Some z /\ 1048576 < z).
Proof.
  intros Ho Ha Hm.
  assert (Hgt : num_gt (declared_length req) MAX_PAYLOAD_SIZE = true
                <-> exists h z, content_length req = Some h
                                /\ parseInt h = Some z /\ 1048576 < z).
  { unfold declared_length, MAX_PAYLOAD_SIZE. split.
    - destruct (content_length req) as [h|]; [|discriminate].
      destruct (String.eqb_spec h "") as [-> | _]; [discriminate|].
      destruct (parseInt h) as [z|] eqn:Ez; [|discriminate].
      cbn [num_gt]. intros Hz%Z.ltb_lt. exists h, z. repeat split; try assumption; lia.
    - intros (h & z & -> & Ez & Hz).
      destruct (String.eqb_spec h "") as [-> | _]; [discriminate Ez|].
      rewrite Ez. cbn [num_gt]. apply Z.ltb_lt. lia. }
  assert (Hcases : num_gt (declared_length req) MAX_PAYLOAD_SIZE = false
                   -> passes_size_guard (handleRequest up req))
    by apply (guard_passed up req o Ho Ha Hm).
  repeat split.
  - unfold declared_length. now rewrite H.
  - apply Hcases. unfold declared_length. now rewrite H.
  - intros h Hh Hnan. apply Hcases. unfold declared_length. rewrite Hh.
    destruct (String.eqb_spec h ""); [reflexivity | now rewrite Hnan].
  - intros Hresp. apply Hgt.
    destruct (num_gt _ _) eqn:E; [reflexivity|].
    specialize (Hcases eq_refl). unfold passes_size_guard in Hcases.
    now rewrite Hresp in Hcases.
  - intros Hex%Hgt. now rewrite (handleRequest_post up req o Ho Ha Hm), Hex.
  - intros Hpass Hex%Hgt.
    rewrite (handleRequest_post up req o Ho Ha Hm), Hex in Hpass. discriminate Hpass.
  - intros Hno.
    destruct (num_gt _ _) eqn:E; [|exact (Hcases eq_refl)].
    destruct Hno. now apply Hgt.
Qed.

Lemma size_guard_exact_witness :
  let req := post_request (Some "text/plain") (Some "lots") "hello" None in
  origin_header req = Some site /\ allowed (Some site) = true /\ method req = "POST"
  /\ (content_length req = None ->
        declared_length req = Some 0 /\ passes_size_guard (handleRequest echo req))
  /\ (forall h, content_length req = Some h -> parseInt h = None ->
        passes_size_guard (handleRequest echo req))
  /\ (handleRequest echo req = (payload_too_large site, [])
      <-> exists h z, content_length req = Some h
                      /\ parseInt h = Some z /\ 1048576 < z)
  /\ (passes_size_guard (handleRequest echo req)
      <-> ~ exists h z, content_length req = Some h
                        /\ parseInt h = Some z /\ 1048576 < z).
Proof.
  intros req. repeat (split; [reflexivity|]).
  exact (size_guard_exact echo req site eq_refl eq_refl eq_refl).
Defined.

(** *** The body of a POST *)



(** The raw pass-through at a form-encoded body. *)
Example post_text_forwarded :
  let req := post_request (Some "text/plain") None "nom=A&portions=3" None in
  snd (handleRequest echo req)
  = [ReadText; Fetch (post_call req (Raw "nom=A&portions=3"))].
Proof. reflexivity. Qed.

End ProxyFacts.

(** ** Properties of the client *)

Module ClientFacts.
Import ApiClient.

Lemma fetch_calls_app (t u : list event) :
  fetch_calls (t ++ u) = fetch_calls t ++ fetch_calls u.
Proof. unfold fetch_calls. apply flat_map_app. Qed.

Ltac run :=
  unfold attach_body, fetch, parse_body, update_token, check_result,
    try_catch, throw, get, set_heap, set_csrfToken, set_lastError, emit,
    mbind, mret, M_bind, M_ret, bind, ret;
  cbn [fst snd csrfToken lastError isInitialized heap location_origin network trace].

(** [makeRequest] on a 2xx response that parses to a value other than
    [null]: the token, the objects, the calls and the outcome. *)
Lemma makeRequest_answered method params data (w : World) (j : json) :
  succeeds_with (answer method params data w) j -> j <> JNull ->
  csrfToken (snd (makeRequest method params data w)) = token_after j (csrfToken w)
  /\ fst (makeRequest method params data w)
     = (if error_envelope j then Throw (envelope_error j) else Return j)
  /\ heap (snd (makeRequest method params data w)) = heap_after method data w
  /\ fetch_calls (trace (snd (makeRequest method params data w)))
     = fetch_calls (trace w) ++ [issued method params data w]
  /\ isInitialized (snd (makeRequest method params data w)) = isInitialized w
  /\ location_origin (snd (makeRequest method params data w)) = location_origin w
  /\ network (snd (makeRequest method params data w)) = network w.
Proof.
  intros (r & Ha & Hok & Hp) Hnull.
  unfold answer, issued, heap_after, token_after, error_envelope, envelope_error in *.
  unfold makeRequest. run.
  destruct (body_object method data) as [l|]; run; rewrite Ha; run; rewrite Hok; run;
    rewrite Hp; run.
  all: destruct j; try congruence; cbn [read]; run.
  all: destruct (truthy_opt (prop _ "newCsrfToken"));
    [|destruct (truthy_opt (prop _ "csrfToken"))];
    run; destruct (is_string (prop _ "result") "error"); run;
    rewrite ?fetch_calls_app; cbn; rewrite ?app_nil_r; repeat split.
Qed.

(** Whatever the network answers, [makeRequest] leaves the caller's
    objects as its options left them and makes exactly one call. *)
Lemma makeRequest_frame method params data (w : World) :
  heap (snd (makeRequest method params data w)) = heap_after method data w
  /\ fetch_calls (trace (snd (makeRequest method params data w)))
     = fetch_calls (trace w) ++ [issued method params data w]
  /\ isInitialized (snd (makeRequest method params data w)) = isInitialized w
  /\ location_origin (snd (makeRequest method params data w)) = location_origin w
  /\ network (snd (makeRequest method params data w)) = network w.
Proof.
  destruct (answer method params data w) as [m | r] eqn:Ha.
  - unfold answer, issued, heap_after in *. unfold makeRequest. run.
    destruct (body_object method data) as [l|]; run; rewrite Ha; run;
      rewrite ?fetch_calls_app; cbn; rewrite ?app_nil_r; repeat split.
  - destruct (ok r) eqn:Hok; [destruct (parsed r) as [j|] eqn:Hp|].
    + assert (Hj : j = JNull \/ j <> JNull) by (destruct j; auto; right; congruence).
      destruct Hj as [-> | Hj].
      2:{ refine (proj2 (proj2 (makeRequest_answered method params data w j _ Hj))).
          exists r; auto. }
      unfold answer, issued, heap_after in *. unfold makeRequest. run.
      destruct (body_object method data) as [l|]; run; rewrite Ha; run;
        rewrite Hok; run; rewrite Hp; run; cbn [read]; run;
        rewrite ?fetch_calls_app; cbn; rewrite ?app_nil_r; repeat split.
    + unfold answer, issued, heap_after in *. unfold makeRequest. run.
      destruct (body_object method data) as [l|]; run; rewrite Ha; run;
        rewrite Hok; run; rewrite Hp; run;
        rewrite ?fetch_calls_app; cbn; rewrite ?app_nil_r; repeat split.
    + unfold answer, issued, heap_after in *. unfold makeRequest. run.
      destruct (body_object method data) as [l|]; run; rewrite Ha; run;
        rewrite Hok; run;
        rewrite ?fetch_calls_app; cbn; rewrite ?app_nil_r; repeat split.
Qed.

(** *** Property writes *)

Lemma assoc_set_prop_eq (k : string) (v : json) (o : object) :
  assoc k (set_prop k v o) = Some v.
Proof.
  induction o as [|[k' v'] o IH]; cbn.
  - now rewrite String.eqb_refl.
  - destruct (String.eqb_spec k k') as [<- | Hne]; cbn.
    + now rewrite String.eqb_refl.
    + destruct (String.eqb_spec k k'); [contradiction | exact IH].
Qed.

Lemma assoc_set_prop_ne (k k' : string) (v : json) (o : object) :
  k <> k' -> assoc k (set_prop k' v o) = assoc k o.
Proof.
  intros Hne. induction o as [|[k0 v0] o IH]; cbn.
  - destruct (String.eqb_spec k k'); [contradiction | reflexivity].
  - destruct (String.eqb_spec k' k0) as [<- | Hne0]; cbn.
    + destruct (String.eqb_spec k k'); [contradiction | reflexivity].
    + destruct (String.eqb_spec k k0); [reflexivity | exact IH].
Qed.

(** C9: [makeRequest('POST', params, data)] writes into the caller's own
    object: after the call, however it ends, the object behind [data]
    has [csrfToken] equal to the token the client held when called and
    [origin] equal to the page origin, its other properties are as they
    were, and the body sent is the serialization of that object. *)
Theorem post_mutates_caller_object (w : World) (params : object) (l : loc) (o : object) :
  heap w !! l = Some o ->
  exists o' : object,
    heap (snd (makeRequest "POST" params (Some l) w)) !! l = Some o'
    /\ assoc "csrfToken" o' = Some (csrfToken w)
    /\ assoc "origin" o' = Some (JStr (location_origin w))
    /\ (forall k, k <> "csrfToken" -> k <> "origin" -> assoc k o' = assoc k o)
    /\ fetch_body (issued "POST" params (Some l) w) = Some (Stringified (JObj o'))
    /\ fetch_calls (trace (snd (makeRequest "POST" params (Some l) w)))
       = fetch_calls (trace w) ++ [issued "POST" params (Some l) w].
Proof.
  intros Hl.
  destruct (makeRequest_frame "POST" params (Some l) w) as (Hh & Ht & _).
  exists (inject w o). rewrite Hh, Ht.
  unfold heap_after, issued.
  change (body_object "POST" (Some l)) with (Some l). cbv iota beta.
  unfold deref, request. rewrite Hl. cbn [default fetch_body snd].
  rewrite lookup_insert_eq. unfold inject.
  repeat split.
  - rewrite assoc_set_prop_ne by discriminate. apply assoc_set_prop_eq.
  - apply assoc_set_prop_eq.
  - intros k Hc Ho. now rewrite !assoc_set_prop_ne.
Qed.

Lemma post_mutates_caller_object_witness :
  let w := ClientSamples.ready (JStr "held") ClientSamples.always_stale in
  heap w !! 0%nat = Some ClientSamples.form
  /\ exists o' : object,
       heap (snd (makeRequest "POST" [] (Some 0%nat) w)) !! 0%nat = Some o'
       /\ assoc "csrfToken" o' = Some (csrfToken w)
       /\ assoc "origin" o' = Some (JStr (location_origin w))
       /\ (forall k, k <> "csrfToken" -> k <> "origin"
                     -> assoc k o' = assoc k ClientSamples.form)
       /\ fetch_body (issued "POST" [] (Some 0%nat) w) = Some (Stringified (JObj o'))
       /\ fetch_calls (trace (snd (makeRequest "POST" [] (Some 0%nat) w)))
          = fetch_calls (trace w) ++ [issued "POST" [] (Some 0%nat) w].
Proof.
  intros w. split; [reflexivity|].
  apply (post_mutates_caller_object w [] 0%nat ClientSamples.form). reflexivity.
Defined.

(** Other objects of the caller are left alone. *)
Lemma post_leaves_other_objects (w : World) (params : object) (l l' : loc) :
  l' <> l ->
  heap (snd (makeRequest "POST" params (Some l) w)) !! l' = heap w !! l'.
Proof.
  intros Hne. destruct (makeRequest_frame "POST" params (Some l) w) as (-> & _).
  unfold heap_after. cbn. now rewrite lookup_insert_ne.
Qed.

(** *** The token carried by a response *)

Lemma prop_Some_not_null (j : json) (k : string) (v : json) :
  prop j k = Some v -> j <> JNull.
Proof. intros H ->. discriminate H. Qed.

(** C7, as stated, fails on a field that is present but falsy: with
    [newCsrfToken] the empty string and [csrfToken] a token, the held
    token becomes the value of [csrfToken], not that of [newCsrfToken]. *)
Lemma empty_newCsrfToken_not_taken :
  let w := ClientSamples.ready (JStr "held")
             (fun _ _ => ClientSamples.replies ClientSamples.empty_new_token) in
  prop ClientSamples.empty_new_token "newCsrfToken" = Some (JStr "")
  /\ csrfToken (snd (makeRequest "GET" [] None w)) = JStr "fallback".
Proof. split; reflexivity. Qed.

(** C7 (amended): when the parsed body of a 2xx response has a truthy
    [newCsrfToken], the held token becomes that value, whether or not
    [csrfToken] is there too; when it has no truthy [newCsrfToken] and a
    truthy [csrfToken], the held token becomes the latter. *)
Theorem response_token_priority method params data (w : World) (j : json) :
  succeeds_with (answer method params data w) j ->
  (forall v, prop j "newCsrfToken" = Some v -> truthy v = true ->
             csrfToken (snd (makeRequest method params data w)) = v)
  /\ (forall v, truthy_opt (prop j "newCsrfToken") = false ->
                prop j "csrfToken" = Some v -> truthy v = true ->
                csrfToken (snd (makeRequest method params data w)) = v).
Proof.
  intros Hs. split.
  - intros v Hv Ht.
    destruct (makeRequest_answered method params data w j Hs
                (prop_Some_not_null _ _ _ Hv)) as (-> & _).
    unfold token_after. rewrite Hv. cbn. now rewrite Ht.
  - intros v Hn Hv Ht.
    destruct (makeRequest_answered method params data w j Hs
                (prop_Some_not_null _ _ _ Hv)) as (-> & _).
    unfold token_after. rewrite Hn, Hv. cbn. now rewrite Ht.
Qed.

Lemma response_token_priority_witness :
  let w := ClientSamples.ready (JStr "held")
             (fun _ _ => ClientSamples.replies ClientSamples.both_tokens) in
  succeeds_with (answer "GET" [] None w) ClientSamples.both_tokens
  /\ prop ClientSamples.both_tokens "newCsrfToken" = Some (JStr "rotated")
  /\ prop ClientSamples.both_tokens "csrfToken" = Some (JStr "plain")
  /\ truthy (JStr "rotated") = true
  /\ csrfToken (snd (makeRequest "GET" [] None w)) = JStr "rotated".
Proof.
  intros w.
  assert (Hs : succeeds_with (answer "GET" [] None w) ClientSamples.both_tokens).
  { eexists. repeat split. }
  split; [exact Hs|]. do 3 (split; [reflexivity|]).
  exact (proj1 (response_token_priority "GET" [] None w ClientSamples.both_tokens Hs)
               (JStr "rotated") eq_refl eq_refl).
Defined.

(** *** [refreshCsrfToken] *)

(** C3, as stated, fails: a refresh answered with [newCsrfToken] alone
    fails with the missing-token error, yet the held token has changed. *)
Lemma refresh_failure_changes_token :
  let w := ClientSamples.ready (JStr "held") ClientSamples.rotated_only in
  prop (JObj [("newCsrfToken", JStr "rotated")]) "csrfToken" = None
  /\ fst (refreshCsrfToken w) = Throw (Error "Pas de jeton CSRF dans la réponse")
  /\ csrfToken w = JStr "held"
  /\ csrfToken (snd (refreshCsrfToken w)) = JStr "rotated".
Proof. repeat split. Qed.

(** An error envelope is rethrown as it is, not as a missing token. *)
Example refresh_error_envelope :
  let w := ClientSamples.ready (JStr "held") ClientSamples.always_stale in
  fst (refreshCsrfToken w) = Throw (Error "jeton invalide")
  /\ csrfToken (snd (refreshCsrfToken w)) = JStr "held".
Proof. split; reflexivity. Qed.

(** C3 (amended): let the GET of [refreshCsrfToken] be answered 2xx with
    a JSON body other than [null].  If the body has no truthy
    [csrfToken], the call fails, with the missing-token error unless the
    body is an error envelope, and the held token is unchanged unless
    the body has a truthy [newCsrfToken], which then replaces it.  If
    the body has a truthy [csrfToken] and is no error envelope, the call
    succeeds and the held token is that value.  If the body is an error
    envelope, with or without a [csrfToken], the call fails with the
    envelope's own message: its [error] when truthy, [Erreur inconnue]
    otherwise. *)
Theorem refresh_outcome (w : World) (j : json) :
  succeeds_with (refresh_answer w) j -> j <> JNull ->
  (truthy_opt (prop j "csrfToken") = false ->
     failed (fst (refreshCsrfToken w))
     /\ (error_envelope j = false ->
         fst (refreshCsrfToken w) = Throw (Error "Pas de jeton CSRF dans la réponse"))
     /\ (truthy_opt (prop j "newCsrfToken") = false ->
         csrfToken (snd (refreshCsrfToken w)) = csrfToken w)
     /\ (forall v, prop j "newCsrfToken" = Some v -> truthy v = true ->
                   csrfToken (snd (refreshCsrfToken w)) = v))
  /\ (forall v, prop j "csrfToken" = Some v -> truthy v = true ->
                error_envelope j = false ->
        fst (refreshCsrfToken w) = Return true
        /\ csrfToken (snd (refreshCsrfToken w)) = v)
  /\ (error_envelope j = true ->
      fst (refreshCsrfToken w)
      = Throw (Error (ToString (if truthy_opt (prop j "error")
                                then default JNull (prop j "error")
                                else JStr "Erreur inconnue")))).
Proof.
  intros Hs Hnull. unfold refresh_answer in Hs.
  destruct (makeRequest_answered _ _ _ w j Hs Hnull) as (Htok & Hres & _).
  unfold refreshCsrfToken. run.
  destruct (makeRequest "GET" [("origin", JStr (location_origin w))] None w)
    as [res w'] eqn:E.
  cbn [fst snd] in Htok, Hres. subst res. split; [|split].
  - intros Hno. destruct (error_envelope j); run.
    + repeat split.
      * eexists; reflexivity.
      * discriminate.
      * intros Hn. rewrite Htok. unfold token_after. now rewrite Hn, Hno.
      * intros v Hv Ht. rewrite Htok. unfold token_after. rewrite Hv. cbn.
        now rewrite Ht.
    + rewrite Hno, andb_false_r. run. repeat split.
      * eexists; reflexivity.
      * intros Hn. rewrite Htok. unfold token_after. now rewrite Hn, Hno.
      * intros v Hv Ht. rewrite Htok. unfold token_after. rewrite Hv. cbn.
        now rewrite Ht.
  - intros v Hv Ht Henv. rewrite Henv. rewrite Hv. cbn [truthy_opt default].
    rewrite Ht.
    assert (Hj : truthy j = true) by (destruct j; try discriminate Hv; reflexivity).
    rewrite Hj. run. split; reflexivity.
  - intros Henv. rewrite Henv. run. reflexivity.
Qed.

Lemma refresh_outcome_witness :
  let w := ClientSamples.ready (JStr "held")
             (fun _ _ => ClientSamples.replies (JObj [("csrfToken", JStr "issued")])) in
  succeeds_with (refresh_answer w) (JObj [("csrfToken", JStr "issued")])
  /\ JObj [("csrfToken", JStr "issued")] <> JNull
  /\ fst (refreshCsrfToken w) = Return true
  /\ csrfToken (snd (refreshCsrfToken w)) = JStr "issued".
Proof.
  intros w.
  assert (Hs : succeeds_with (refresh_answer w) (JObj [("csrfToken", JStr "issued")])).
  { eexists. repeat split. }
  assert (Hn : JObj [("csrfToken", JStr "issued")] <> JNull) by discriminate.
  split; [exact Hs|]. split; [exact Hn|].
  exact (proj1 (proj2 (refresh_outcome w _ Hs Hn))
           (JStr "issued") eq_refl eq_refl eq_refl).
Defined.

(** *** [validateFormData] *)

Lemma validate_missing (data : json) :
  truthy data = true -> missingFields data <> [] ->
  validateFormData data = Throw (Error (missing_message data)).
Proof.
  intros Ht Hm. unfold validateFormData. rewrite Ht. cbn [negb].
  destruct (missingFields data) eqn:E; [congruence|].
  unfold missing_message. rewrite E. reflexivity.
Qed.

Lemma missing_field_named (data : json) (field : string) :
  In field requiredFields -> missing data field = true ->
  In field (missingFields data) /\ includes (missing_message data) field = true.
Proof.
  intros Hin Hmiss. split.
  - unfold missingFields. apply filter_In. auto.
  - unfold missing_message, missingFields, requiredFields in *. cbn [List.filter].
    destruct (missing data "nom") eqn:E1, (missing data "email") eqn:E2,
      (missing data "categorie") eqn:E3, (missing data "detail") eqn:E4,
      (missing data "portions") eqn:E5;
      cbn [In] in Hin;
      repeat (destruct Hin as [<- | Hin]; [congruence || reflexivity|]);
      contradiction.
Qed.

(** C8: [validateFormData({})] throws one error whose message lists the
    five required fields; and for every data object lacking required
    fields the one error thrown is the combined message, which names
    each field that is missing. *)
Theorem missing_fields_all_reported :
  validateFormData (JObj [])
  = Throw (Error "Champs obligatoires manquants: nom, email, categorie, detail, portions")
  /\ forall data : json,
       truthy data = true ->
       (exists field, In field requiredFields /\ missing data field = true) ->
       validateFormData data = Throw (Error (missing_message data))
       /\ forall field, In field requiredFields -> missing data field = true ->
            In field (missingFields data)
            /\ includes (missing_message data) field = true.
Proof.
  split; [reflexivity|].
  intros data Ht (f & Hf & Hm). split.
  - apply validate_missing; [assumption|].
    intros E. destruct (missing_field_named data f Hf Hm) as [Hin _].
    rewrite E in Hin. destruct Hin.
  - intros field. apply missing_field_named.
Qed.

Lemma missing_fields_all_reported_witness :
  let data := JObj [("nom", JStr "Ada"); ("email", JStr ""); ("portions", JNum 0)] in
  truthy data = true
  /\ In "detail" requiredFields /\ missing data "detail" = true
  /\ validateFormData data
     = Throw (Error "Champs obligatoires manquants: email, categorie, detail, portions")
  /\ includes (missing_message data) "detail" = true.
Proof.
  intros data.
  assert (Hin : In "detail" requiredFields) by (cbn; tauto).
  split; [reflexivity|]. split; [exact Hin|]. split; [reflexivity|].
  destruct (proj2 missing_fields_all_reported data eq_refl
                  (ex_intro _ "detail" (conj Hin eq_refl))) as [Hv Hnamed].
  split; [exact Hv | exact (proj2 (Hnamed "detail" Hin eq_refl))].
Defined.

(** *** [submitContribution] *)

(** C1: the first POST answered with the envelope
    [{result:"error", error:"jeton invalide"}] makes [makeRequest] throw,
    so the retry written after it is never reached: an initialized
    client with a valid form makes that one call, no refresh and no
    second submission, and rejects with [jeton invalide]. *)
Theorem stale_token_not_retried (w : World) (l : loc) :
  isInitialized w = true ->
  validateFormData (view (heap w) (Some l)) = Return true ->
  succeeds_with (answer "POST" [] (Some l) w) ClientSamples.stale_envelope ->
  fst (submitContribution (Some l) w) = Throw (Error "jeton invalide")
  /\ fetch_calls (trace (snd (submitContribution (Some l) w)))
     = fetch_calls (trace w) ++ [issued "POST" [] (Some l) w].
Proof.
  intros Hi Hv Hs.
  assert (Hn : ClientSamples.stale_envelope <> JNull) by discriminate.
  destruct (makeRequest_answered _ _ _ w _ Hs Hn) as (_ & Hres & _ & Htr & _).
  unfold submitContribution, lift. run. rewrite Hi. run. rewrite Hv.
  destruct (makeRequest "POST" [] (Some l) w) as [res w'] eqn:E.
  cbn [fst snd] in Hres, Htr. subst res. cbn [error_envelope].
  change (error_envelope ClientSamples.stale_envelope) with true. run.
  rewrite fetch_calls_app, Htr. cbn. rewrite app_nil_r. split; reflexivity.
Qed.

Lemma stale_token_not_retried_witness :
  let w := ClientSamples.ready (JStr "held") ClientSamples.always_stale in
  isInitialized w = true
  /\ validateFormData (view (heap w) (Some 0%nat)) = Return true
  /\ succeeds_with (answer "POST" [] (Some 0%nat) w) ClientSamples.stale_envelope
  /\ fst (submitContribution (Some 0%nat) w) = Throw (Error "jeton invalide")
  /\ fetch_calls (trace (snd (submitContribution (Some 0%nat) w)))
     = fetch_calls (trace w) ++ [issued "POST" [] (Some 0%nat) w].
Proof.
  intros w.
  assert (Hs : succeeds_with (answer "POST" [] (Some 0%nat) w)
                             ClientSamples.stale_envelope).
  { eexists. repeat split. }
  split; [reflexivity|]. split; [reflexivity|]. split; [exact Hs|].
  exact (stale_token_not_retried w 0%nat eq_refl eq_refl Hs).
Defined.

(** The retry runs only when the rejection comes outside an error
    envelope: then the client refreshes once and submits the same object
    again, now carrying the fresh token. *)
Example retry_on_bare_rejection :
  let w := ClientSamples.ready (JStr "held") ClientSamples.bare_rejection in
  fst (submitContribution (Some 0%nat) w) = Return (JObj [("result", JStr "success")])
  /\ map fetch_method (fetch_calls (trace (snd (submitContribution (Some 0%nat) w))))
     = ["POST"; "GET"; "POST"]
  /\ assoc "csrfToken" (deref (heap (snd (submitContribution (Some 0%nat) w))) 0%nat)
     = Some (JStr "fresh").
Proof. repeat split. Qed.

(** On that path a second rejection is handed to the caller: three
    calls in all, no third submission. *)
Example second_rejection_propagated :
  let w := ClientSamples.ready (JStr "held") ClientSamples.rejected_again in
  fst (submitContribution (Some 0%nat) w) = Throw (Error "jeton invalide")
  /\ map fetch_method (fetch_calls (trace (snd (submitContribution (Some 0%nat) w))))
     = ["POST"; "GET"; "POST"].
Proof. split; reflexivity. Qed.

(** A client that is not initialized yet runs [init] first. *)
Example lazy_init_then_submit :
  let w := constructed ClientSamples.page ClientSamples.bare_rejection
                       {[ 0%nat := ClientSamples.form ]} in
  fst (submitContribution (Some 0%nat) w) = Return (JObj [("result", JStr "success")])
  /\ map fetch_method (fetch_calls (trace (snd (submitContribution (Some 0%nat) w))))
     = ["GET"; "POST"]
  /\ isInitialized (snd (submitContribution (Some 0%nat) w)) = true
  /\ csrfToken (snd (submitContribution (Some 0%nat) w)) = JStr "fresh".
Proof. repeat split. Qed.

End ClientFacts.

(** ** Further properties of the edge proxy *)

Module ProxyExtras.
Import EdgeProxy Samples.

(** What [handleRequest] does once the origin is accepted. *)
Lemma handleRequest_allowed (up : Upstream) (req : Request) (o : string) :
  origin_header req = Some o -> allowed (Some o) = true ->
  handleRequest up req =
    if String.eqb (method req) "OPTIONS" then (preflight o, [])
    else if String.eqb (method req) "GET" then
      relay up o "Erreur lors de la requête GET:" (get_call req)
    else if String.eqb (method req) "POST" then
      if num_gt (declared_length req) MAX_PAYLOAD_SIZE
      then (payload_too_large o, [])
      else if is_json_type req then
        match body_json req with
        | None => (bad_json o, [ReadJson])
        | Some parsed =>
            with_trace [ReadJson]
              (relay up o "Erreur lors de la requête POST:"
                     (post_call req (post_payload parsed)))
        end
      else
        with_trace [ReadText]
          (relay up o "Erreur lors de la requête POST:"
                 (post_call req (Raw (body_text req))))
    else (method_not_allowed o, []).
Proof.
  intros Ho Ha. unfold handleRequest. rewrite Ho, Ha. reflexivity.
Qed.

Lemma relay_calls up o label call :
  upstream_calls (snd (relay up o label call)) = 1%nat
  /\ body_reads (snd (relay up o label call)) = 0%nat.
Proof.
  unfold relay. destruct (up call); [destruct (new_Response _ _ _)|]; split; reflexivity.
Qed.

Lemma read_relay_calls up o label call (e : event) :
  is_fetch e = false ->
  upstream_calls (snd (with_trace [e] (relay up o label call))) = 1%nat.
Proof.
  intros He. unfold with_trace. cbn [snd]. unfold upstream_calls. cbn.
  rewrite He. apply relay_calls.
Qed.

(** X1: a method other than OPTIONS, GET and POST, from an accepted
    origin, is answered 405 with [Allow: GET, POST, OPTIONS]; the body is
    not read and no call to Upstream is made. *)
Theorem other_method_refused (up : Upstream) (req : Request) :
  allowed (origin_header req) = true ->
  method req <> "OPTIONS" -> method req <> "GET" -> method req <> "POST" ->
  status (fst (handleRequest up req)) = 405
  /\ header "Allow" (headers (fst (handleRequest up req))) = Some "GET, POST, OPTIONS"
  /\ body (fst (handleRequest up req))
     = Some (Stringified (JObj [("result", JStr "error");
                                ("error", JStr "Méthode non supportée")]))
  /\ snd (handleRequest up req) = [].
Proof.
  intros Ha H1 H2 H3.
  destruct (origin_header req) as [o|] eqn:Ho; [|discriminate Ha].
  rewrite (handleRequest_allowed up req o Ho Ha).
  apply String.eqb_neq in H1, H2, H3. rewrite H1, H2, H3. repeat split.
Qed.

Lemma other_method_refused_witness :
  let req := request_with "DELETE" [] in
  allowed (origin_header req) = true
  /\ method req <> "OPTIONS" /\ method req <> "GET" /\ method req <> "POST"
  /\ status (fst (handleRequest echo req)) = 405
  /\ header "Allow" (headers (fst (handleRequest echo req))) = Some "GET, POST, OPTIONS"
  /\ body (fst (handleRequest echo req))
     = Some (Stringified (JObj [("result", JStr "error");
                                ("error", JStr "Méthode non supportée")]))
  /\ snd (handleRequest echo req) = [].
Proof.
  intros req.
  assert (H1 : method req <> "OPTIONS") by discriminate.
  assert (H2 : method req <> "GET") by discriminate.
  assert (H3 : method req <> "POST") by discriminate.
  split; [reflexivity|]. do 3 (split; [assumption|]).
  exact (other_method_refused echo req eq_refl H1 H2 H3).
Defined.

(** A preflight (OPTIONS) from an accepted origin is answered 204
    with no body and exactly the four CORS headers, without reading the
    body or calling Upstream, whatever else the request carries. *)
Theorem preflight_answered (up : Upstream) (req : Request) (o : string) :
  origin_header req = Some o -> allowed (Some o) = true ->
  method req = "OPTIONS" ->
  handleRequest up req
  = ({| status := 204; body := None;
        headers := [ ("Access-Control-Allow-Origin", o);
                     ("Access-Control-Allow-Methods", "GET, POST, OPTIONS");
                     ("Access-Control-Allow-Headers", "Content-Type, X-Requested-With");
                     ("Access-Control-Max-Age", "86400") ] |}, []).
Proof.
  intros Ho Ha Hm. rewrite (handleRequest_allowed up req o Ho Ha), Hm. reflexivity.
Qed.

Lemma preflight_answered_witness :
  let req := request_with "OPTIONS" [("action", "getData")] in
  origin_header req = Some site /\ allowed (Some site) = true
  /\ method req = "OPTIONS"
  /\ status (fst (handleRequest down req)) = 204
  /\ body (fst (handleRequest down req)) = None
  /\ snd (handleRequest down req) = [].
Proof.
  intros req. do 3 (split; [reflexivity|]).
  rewrite (preflight_answered down req site eq_refl eq_refl eq_refl).
  repeat split.
Defined.

(** X2: [handleRequest] calls Upstream at most once, and exactly once
    for the requests it forwards: accepted origin, and a GET, or a POST
    within the size limit whose body parses when announced as JSON. *)
Theorem one_call_per_forwarded_request (up : Upstream) (req : Request) :
  upstream_calls (snd (handleRequest up req))
  = if forwarded req then 1%nat else 0%nat.
Proof.
  unfold forwarded.
  destruct (origin_header req) as [o|] eqn:Ho.
  2:{ unfold handleRequest. rewrite Ho. reflexivity. }
  destruct (allowed (Some o)) eqn:Ha.
  2:{ unfold handleRequest. rewrite Ho, Ha. reflexivity. }
  rewrite (handleRequest_allowed up req o Ho Ha). cbn [andb].
  destruct (String.eqb_spec (method req) "OPTIONS") as [Hm | _].
  { rewrite Hm. reflexivity. }
  destruct (String.eqb (method req) "GET"); [apply relay_calls|].
  destruct (String.eqb (method req) "POST"); [|reflexivity].
  cbn [orb andb].
  destruct (num_gt _ _); [reflexivity|]. cbn [negb andb].
  destruct (is_json_type req); cbn [negb orb].
  - destruct (body_json req); [now apply read_relay_calls | reflexivity].
  - now apply read_relay_calls.
Qed.

(** X3: a GET is forwarded as one GET to [API_URL] that carries the
    query parameters of the request, all of them and in their order, no
    body, and the proxy's [User-Agent]; the request body is not read. *)
Theorem get_forwards_query (up : Upstream) (req : Request) :
  allowed (origin_header req) = true -> method req = "GET" ->
  exists rest,
    snd (handleRequest up req)
    = Fetch {| out_url := API_URL; out_query := searchParams req;
               out_method := "GET";
               out_headers := [("User-Agent", "FeteVoisinsProxy/1.0")];
               out_body := None |} :: rest
    /\ upstream_calls rest = 0%nat /\ body_reads rest = 0%nat.
Proof.
  intros Ha Hm.
  destruct (origin_header req) as [o|] eqn:Ho; [|discriminate Ha].
  rewrite (handleRequest_allowed up req o Ho Ha), Hm. cbn [String.eqb Ascii.eqb Bool.eqb].
  apply ProxyFacts.relay_trace.
Qed.

Lemma get_forwards_query_witness :
  let req := request_with "GET" [("action", "getData"); ("origin", site)] in
  allowed (origin_header req) = true /\ method req = "GET"
  /\ exists rest,
       snd (handleRequest echo req)
       = Fetch {| out_url := API_URL;
                  out_query := [("action", "getData"); ("origin", site)];
                  out_method := "GET";
                  out_headers := [("User-Agent", "FeteVoisinsProxy/1.0")];
                  out_body := None |} :: rest
       /\ upstream_calls rest = 0%nat /\ body_reads rest = 0%nat.
Proof.
  intros req. do 2 (split; [reflexivity|]).
  exact (get_forwards_query echo req eq_refl eq_refl).
Defined.

(** The response of a forwarded request is the response of its relay. *)
Lemma forwarded_relay (up : Upstream) (req : Request) (o : string) :
  origin_header req = Some o -> allowed (Some o) = true -> forwarded req = true ->
  exists label call,
    fst (handleRequest up req) = fst (relay up o label call).
Proof.
  intros Ho Ha Hf. unfold forwarded in Hf. rewrite Ho, Ha in Hf. cbn [andb] in Hf.
  rewrite (handleRequest_allowed up req o Ho Ha).
  destruct (String.eqb_spec (method req) "OPTIONS") as [Hm | _].
  { rewrite Hm in Hf. discriminate Hf. }
  destruct (String.eqb (method req) "GET"); [eauto|].
  destruct (String.eqb (method req) "POST"); [|discriminate Hf].
  cbn [orb andb] in Hf.
  destruct (num_gt _ _); [discriminate Hf|]. cbn [negb andb] in Hf.
  destruct (is_json_type req); cbn [negb orb] in Hf.
  - destruct (body_json req); [|discriminate Hf]. unfold with_trace. cbn [fst]. eauto.
  - unfold with_trace. cbn [fst]. eauto.
Qed.

(** X4: when Upstream cannot be reached, every forwarded request is
    answered 500 with the same generic body and the CORS headers: nothing
    of the failure, of the request body or of the query shows in the
    response. *)
Theorem upstream_failure_hidden (up : Upstream) (req : Request) (o : string) :
  origin_header req = Some o -> allowed (Some o) = true -> forwarded req = true ->
  (forall call, up call = None) ->
  fst (handleRequest up req)
  = {| status := 500;
       body := Some (Stringified
                 (JObj [("result", JStr "error");
                        ("error", JStr "Erreur lors de la communication avec le serveur")]));
       headers := corsHeaders o ++ [("Content-Type", "application/json")] |}.
Proof.
  intros Ho Ha Hf Hdown.
  destruct (forwarded_relay up req o Ho Ha Hf) as (label & call & ->).
  unfold relay. rewrite Hdown. reflexivity.
Qed.

Lemma upstream_failure_hidden_witness :
  let req := post_request (Some "application/json") (Some "2") "{}" (Some (JObj [])) in
  origin_header req = Some site /\ allowed (Some site) = true
  /\ forwarded req = true /\ (forall call, down call = None)
  /\ status (fst (handleRequest down req)) = 500.
Proof.
  intros req. do 3 (split; [reflexivity|]). split; [reflexivity|].
  rewrite (upstream_failure_hidden down req site eq_refl eq_refl eq_refl
             (fun _ => eq_refl)).
  reflexivity.
Defined.

(** X5: when Upstream answers with a status from 200 to 599 that allows
    a body, the response to a forwarded request has that status and that
    text, unchanged, with [Content-Type: application/json] and the CORS
    headers, whatever Upstream's own headers were. *)
Theorem upstream_answer_relayed (up : Upstream) (req : Request) (o : string)
        (st : Z) (text : string) :
  origin_header req = Some o -> allowed (Some o) = true -> forwarded req = true ->
  (forall call, up call = Some {| up_status := st; up_text := text |}) ->
  200 <= st <= 599 -> null_body_status st = false ->
  fst (handleRequest up req)
  = {| status := st; body := Some (Raw text);
       headers := corsHeaders o ++ [("Content-Type", "application/json")] |}.
Proof.
  intros Ho Ha Hf Hup Hst Hnull.
  destruct (forwarded_relay up req o Ho Ha Hf) as (label & call & ->).
  unfold relay, new_Response. rewrite Hup. cbn [up_status up_text].
  rewrite Hnull.
  destruct (Z.leb_spec 200 st), (Z.leb_spec st 599); try lia. reflexivity.
Qed.

Lemma upstream_answer_relayed_witness :
  let req := request_with "GET" [("action", "getData")] in
  origin_header req = Some site /\ allowed (Some site) = true
  /\ forwarded req = true
  /\ (forall call, answers 404 "not here" call
                   = Some {| up_status := 404; up_text := "not here" |})
  /\ 200 <= 404 <= 599 /\ null_body_status 404 = false
  /\ status (fst (handleRequest (answers 404 "not here") req)) = 404
  /\ body (fst (handleRequest (answers 404 "not here") req)) = Some (Raw "not here").
Proof.
  intros req. do 3 (split; [reflexivity|]). split; [reflexivity|].
  split; [lia|]. split; [reflexivity|].
  rewrite (upstream_answer_relayed (answers 404 "not here") req site 404 "not here"
             eq_refl eq_refl eq_refl (fun _ => eq_refl) ltac:(lia) eq_refl).
  split; reflexivity.
Defined.

(** X6: a POST body announced as JSON and parsed to [v] is forwarded
    re-serialized, except that a JSON string is forwarded as its bare
    content; the call is a POST to [API_URL] without query, whose
    [Content-Type] is the request's, or [application/json] when the
    request has none. *)
Theorem post_json_forwarding (up : Upstream) (req : Request) (v : json) :
  allowed (origin_header req) = true -> method req = "POST" ->
  num_gt (declared_length req) MAX_PAYLOAD_SIZE = false ->
  is_json_type req = true -> body_json req = Some v ->
  exists call rest,
    snd (handleRequest up req) = ReadJson :: Fetch call :: rest
    /\ upstream_calls rest = 0%nat
    /\ out_url call = API_URL /\ out_query call = [] /\ out_method call = "POST"
    /\ header "Content-Type" (out_headers call) = Some (forwarded_type req)
    /\ header "User-Agent" (out_headers call) = Some "FeteVoisinsProxy/1.0"
    /\ (forall s, v = JStr s -> out_body call = Some (Raw s))
    /\ ((forall s, v <> JStr s) -> out_body call = Some (Stringified v)).
Proof.
  intros Ha Hm Hg Hj Hv.
  destruct (origin_header req) as [o|] eqn:Ho; [|discriminate Ha].
  rewrite (ProxyFacts.handleRequest_post up req o Ho Ha Hm), Hg, Hj, Hv.
  unfold with_trace. cbn [snd].
  destruct (ProxyFacts.relay_trace up o "Erreur lors de la requête POST:"
              (post_call req (post_payload v))) as (rest & -> & Hu & _).
  exists (post_call req (post_payload v)), rest.
  repeat split; try assumption.
  - intros s ->. reflexivity.
  - intros Hns. destruct v; try reflexivity. destruct (Hns s eq_refl).
Qed.

Lemma post_json_forwarding_witness :
  let req := post_request (Some "application/json") None "ignored" (Some (JStr "bare")) in
  allowed (origin_header req) = true /\ method req = "POST"
  /\ num_gt (declared_length req) MAX_PAYLOAD_SIZE = false
  /\ is_json_type req = true /\ body_json req = Some (JStr "bare")
  /\ exists call rest,
       snd (handleRequest echo req) = ReadJson :: Fetch call :: rest
       /\ out_body call = Some (Raw "bare").
Proof.
  intros req. do 5 (split; [reflexivity|]).
  destruct (post_json_forwarding echo req (JStr "bare")
              eq_refl eq_refl eq_refl eq_refl eq_refl)
    as (call & rest & Ht & _ & _ & _ & _ & _ & _ & Hs & _).
  exists call, rest. split; [exact Ht | exact (Hs "bare" eq_refl)].
Defined.

Lemma relay_content_type up o label call :
  header "Content-Type" (headers (fst (relay up o label call)))
  = Some "application/json".
Proof.
  rewrite ProxyFacts.relay_headers. reflexivity.
Qed.

(** X7: every response of [handleRequest] is labelled
    [Content-Type: application/json], the 403 and the relayed answers
    included; the one exception is the 204 preflight, which has no
    content type. *)
Theorem content_type_on_every_response (up : Upstream) (req : Request) :
  header "Content-Type" (headers (fst (handleRequest up req)))
  = if allowed (origin_header req) && String.eqb (method req) "OPTIONS"
    then None else Some "application/json".
Proof.
  destruct (origin_header req) as [o|] eqn:Ho.
  2:{ unfold handleRequest. rewrite Ho. reflexivity. }
  destruct (allowed (Some o)) eqn:Ha.
  2:{ unfold handleRequest. rewrite Ho, Ha. reflexivity. }
  rewrite (handleRequest_allowed up req o Ho Ha). cbn [andb].
  destruct (String.eqb (method req) "OPTIONS"); [reflexivity|].
  destruct (String.eqb (method req) "GET"); [apply relay_content_type|].
  destruct (String.eqb (method req) "POST"); [|reflexivity].
  destruct (num_gt _ _); [reflexivity|].
  destruct (is_json_type req); [destruct (body_json req)|];
    unfold with_trace; cbn [fst]; try apply relay_content_type; reflexivity.
Qed.

(** A [Content-Length] that starts with a minus sign never exceeds the limit. *)
Lemma parseInt_minus (s : string) (z : Z) :
  parseInt (String "-" s) = Some z -> z <= 0.
Proof.
  unfold parseInt.
  rewrite (trim_start_stops (String "-" s)) by (apply space_width_ascii; cbn; lia).
  cbn [strip_sign]. change (Ascii.eqb "-" "-") with true. cbv iota.
  destruct (unsigned_int s) as [n|]; [|discriminate]. intros [= <-]. lia.
Qed.

(** X8: the size guard trusts the sign of the header: a POST whose
    [Content-Length] starts with a minus sign passes the guard, whatever
    follows the sign and whatever the size of the body. *)
Theorem negative_length_passes (up : Upstream) (req : Request) (o rest : string) :
  origin_header req = Some o -> allowed (Some o) = true -> method req = "POST" ->
  content_length req = Some (String "-" rest) ->
  passes_size_guard (handleRequest up req).
Proof.
  intros Ho Ha Hm Hl. apply (ProxyFacts.guard_passed up req o Ho Ha Hm).
  unfold declared_length. rewrite Hl. cbn [String.eqb].
  destruct (parseInt (String "-" rest)) as [z|] eqn:E; [|reflexivity].
  apply parseInt_minus in E. cbn [num_gt]. unfold MAX_PAYLOAD_SIZE.
  destruct (Z.ltb_spec (1024 * 1024) z); [lia | reflexivity].
Qed.

Lemma negative_length_passes_witness :
  let req := post_request (Some "text/plain") (Some "-99999999") "hello" None in
  origin_header req = Some site /\ allowed (Some site) = true /\ method req = "POST"
  /\ content_length req = Some (String "-" "99999999")
  /\ passes_size_guard (handleRequest echo req).
Proof.
  intros req. do 4 (split; [reflexivity|]).
  exact (negative_length_passes echo req site "99999999"
           eq_refl eq_refl eq_refl eq_refl).
Defined.

End ProxyExtras.

(** ** Further properties of the client *)

Module ClientExtras.
Import ApiClient ClientFacts.

(** *** The outcomes of [makeRequest] *)

Lemma or_else_nonempty (c : ascii) (s fallback : string) :
  or_else (String c s) fallback = String c s.
Proof. reflexivity. Qed.

Lemma makeRequest_rejected_run method params data (w : World) (m : string) :
  answer method params data w = Rejected m ->
  fst (makeRequest method params data w) = Throw (TypeError m)
  /\ csrfToken (snd (makeRequest method params data w)) = csrfToken w
  /\ lastError (snd (makeRequest method params data w))
     = JStr (or_else m "Erreur de communication").
Proof.
  intros Ha. unfold answer, issued in Ha. unfold makeRequest. run.
  destruct (body_object method data) as [l|]; run; rewrite Ha; run; repeat split.
Qed.

Lemma makeRequest_status_run method params data (w : World) (r : HttpResponse) :
  answer method params data w = Resolved r -> ok r = false ->
  fst (makeRequest method params data w)
  = Throw (Error ("Erreur HTTP: " +:+ Z_toString (status r) +:+ " " +:+ statusText r))
  /\ csrfToken (snd (makeRequest method params data w)) = csrfToken w
  /\ lastError (snd (makeRequest method params data w))
     = JStr ("Erreur HTTP: " +:+ Z_toString (status r) +:+ " " +:+ statusText r).
Proof.
  intros Ha Hok. unfold answer, issued in Ha. unfold makeRequest. run.
  destruct (body_object method data) as [l|]; run; rewrite Ha; run; rewrite Hok; run;
    repeat split.
Qed.

Lemma makeRequest_syntax_run method params data (w : World) (r : HttpResponse) :
  answer method params data w = Resolved r -> ok r = true -> parsed r = None ->
  fst (makeRequest method params data w) = Throw (Error "Format de réponse invalide")
  /\ csrfToken (snd (makeRequest method params data w)) = csrfToken w
  /\ lastError (snd (makeRequest method params data w))
     = JStr "Format de réponse invalide".
Proof.
  intros Ha Hok Hp. unfold answer, issued in Ha. unfold makeRequest. run.
  destruct (body_object method data) as [l|]; run; rewrite Ha; run; rewrite Hok; run;
    rewrite Hp; run; repeat split.
Qed.

Lemma makeRequest_null_run method params data (w : World) (r : HttpResponse) :
  answer method params data w = Resolved r -> ok r = true -> parsed r = Some JNull ->
  fst (makeRequest method params data w)
  = Throw (TypeError "Cannot read properties of null (reading 'newCsrfToken')")
  /\ csrfToken (snd (makeRequest method params data w)) = csrfToken w
  /\ lastError (snd (makeRequest method params data w))
     = JStr "Cannot read properties of null (reading 'newCsrfToken')".
Proof.
  intros Ha Hok Hp. unfold answer, issued in Ha. unfold makeRequest. run.
  destruct (body_object method data) as [l|]; run; rewrite Ha; run; rewrite Hok; run;
    rewrite Hp; run; cbn [read]; run; repeat split.
Qed.

Lemma makeRequest_answered_lastError method params data (w : World) (j : json) :
  succeeds_with (answer method params data w) j -> j <> JNull ->
  lastError (snd (makeRequest method params data w))
  = if error_envelope j
    then JStr (or_else (message_of (envelope_error j)) "Erreur de communication")
    else lastError w.
Proof.
  intros (r & Ha & Hok & Hp) Hnull.
  unfold answer, issued, error_envelope, envelope_error in *.
  unfold makeRequest. run.
  destruct (body_object method data) as [l|]; run; rewrite Ha; run; rewrite Hok; run;
    rewrite Hp; run.
  all: destruct j; try congruence; cbn [read]; run.
  all: destruct (truthy_opt (prop _ "newCsrfToken"));
    [|destruct (truthy_opt (prop _ "csrfToken"))];
    run; destruct (is_string (prop _ "result") "error"); run; reflexivity.
Qed.

Lemma answer_cases (a : FetchOutcome) : answered a.
Proof.
  destruct a as [m | r]; [now apply (by_rejection _ m)|].
  destruct (ok r) eqn:Hok; [|now apply (by_status _ r)].
  destruct (parsed r) as [j|] eqn:Hp; [|now apply (by_garbage _ r)].
  assert (Hj : j = JNull \/ j <> JNull) by (destruct j; auto; right; congruence).
  destruct Hj as [-> | Hj]; [now apply (by_null _ r)|].
  apply (by_value _ j); [exists r; auto | assumption].
Qed.

Lemma token_after_truthy (j held : json) :
  token_after j held = held \/ truthy (token_after j held) = true.
Proof.
  unfold token_after.
  destruct (prop j "newCsrfToken") as [v|]; cbn [truthy_opt default].
  - destruct (truthy v) eqn:Hv; [now right|].
    destruct (prop j "csrfToken") as [v'|]; cbn [truthy_opt default]; [|now left].
    destruct (truthy v') eqn:Hv'; [now right | now left].
  - destruct (prop j "csrfToken") as [v'|]; cbn [truthy_opt default]; [|now left].
    destruct (truthy v') eqn:Hv'; [now right | now left].
Qed.

(** The token after [makeRequest] is the one held before or a truthy one. *)
Lemma makeRequest_token method params data (w : World) :
  csrfToken (snd (makeRequest method params data w)) = csrfToken w
  \/ truthy (csrfToken (snd (makeRequest method params data w))) = true.
Proof.
  destruct (answer_cases (answer method params data w))
    as [m Ha | r Ha Hok | r Ha Hok Hp | r Ha Hok Hp | j Hs Hj].
  - left. apply (makeRequest_rejected_run _ _ _ _ _ Ha).
  - left. apply (makeRequest_status_run _ _ _ _ _ Ha Hok).
  - left. apply (makeRequest_syntax_run _ _ _ _ _ Ha Hok Hp).
  - left. apply (makeRequest_null_run _ _ _ _ _ Ha Hok Hp).
  - destruct (makeRequest_answered _ _ _ _ _ Hs Hj) as (-> & _).
    apply token_after_truthy.
Qed.

(** What [makeRequest] returns is the parsed body, never [null]. *)
Lemma makeRequest_returns method params data (w : World) (v : json) :
  fst (makeRequest method params data w) = Return v ->
  succeeds_with (answer method params data w) v
  /\ v <> JNull /\ error_envelope v = false.
Proof.
  intros Hr.
  destruct (answer_cases (answer method params data w))
    as [m Ha | r Ha Hok | r Ha Hok Hp | r Ha Hok Hp | j Hs Hj].
  - destruct (makeRequest_rejected_run _ _ _ _ _ Ha) as (E & _). congruence.
  - destruct (makeRequest_status_run _ _ _ _ _ Ha Hok) as (E & _). congruence.
  - destruct (makeRequest_syntax_run _ _ _ _ _ Ha Hok Hp) as (E & _). congruence.
  - destruct (makeRequest_null_run _ _ _ _ _ Ha Hok Hp) as (E & _). congruence.
  - destruct (makeRequest_answered _ _ _ _ _ Hs Hj) as (_ & E & _).
    rewrite E in Hr. destruct (error_envelope j) eqn:He; [discriminate Hr|].
    injection Hr as <-. auto.
Qed.

(** X9: a response whose status is not 2xx makes [makeRequest] throw
    [Erreur HTTP: <status> <statusText>]; the body is not looked at, so
    the held token stays what it was, and the message is recorded as the
    last error. *)
Theorem http_error_thrown method params data (w : World) (r : HttpResponse) :
  answer method params data w = Resolved r ->
  status r < 200 \/ 299 < status r ->
  fst (makeRequest method params data w)
  = Throw (Error ("Erreur HTTP: " +:+ Z_toString (status r) +:+ " " +:+ statusText r))
  /\ csrfToken (snd (makeRequest method params data w)) = csrfToken w
  /\ lastError (snd (makeRequest method params data w))
     = JStr ("Erreur HTTP: " +:+ Z_toString (status r) +:+ " " +:+ statusText r).
Proof.
  intros Ha Hst. apply (makeRequest_status_run _ _ _ _ _ Ha).
  unfold ok. destruct (Z.leb_spec 200 (status r)), (Z.leb_spec (status r) 299);
    try reflexivity; lia.
Qed.

(** X10: a 2xx response whose text is not JSON makes [makeRequest] throw
    [Format de réponse invalide], leaving the held token as it was. *)
Theorem invalid_format_thrown method params data (w : World) (r : HttpResponse) :
  answer method params data w = Resolved r ->
  200 <= status r <= 299 -> parsed r = None ->
  fst (makeRequest method params data w) = Throw (Error "Format de réponse invalide")
  /\ csrfToken (snd (makeRequest method params data w)) = csrfToken w
  /\ lastError (snd (makeRequest method params data w))
     = JStr "Format de réponse invalide".
Proof.
  intros Ha Hst Hp. apply (makeRequest_syntax_run _ _ _ _ _ Ha); [|assumption].
  unfold ok. destruct (Z.leb_spec 200 (status r)), (Z.leb_spec (status r) 299);
    try reflexivity; lia.
Qed.

(** X11: when [fetch] itself rejects, [makeRequest] rethrows that very
    error; the last error is its message, or [Erreur de communication]
    when the message is empty; the held token stays what it was. *)
Theorem network_failure_rethrown method params data (w : World) (m : string) :
  answer method params data w = Rejected m ->
  fst (makeRequest method params data w) = Throw (TypeError m)
  /\ csrfToken (snd (makeRequest method params data w)) = csrfToken w
  /\ lastError (snd (makeRequest method params data w))
     = JStr (if String.eqb m "" then "Erreur de communication" else m).
Proof.
  intros Ha. exact (makeRequest_rejected_run _ _ _ _ _ Ha).
Qed.

(** X12: an error envelope ([result: "error"] in a 2xx response) makes
    [makeRequest] throw the envelope's [error] (or [Erreur inconnue]),
    but only after the token carried by the same body has replaced the
    held one: a failed call can still rotate the token. *)
Theorem error_envelope_still_rotates method params data (w : World) (j : json) :
  succeeds_with (answer method params data w) j ->
  error_envelope j = true ->
  fst (makeRequest method params data w)
  = Throw (Error (ToString (if truthy_opt (prop j "error")
                            then default JNull (prop j "error")
                            else JStr "Erreur inconnue")))
  /\ (forall v, prop j "newCsrfToken" = Some v -> truthy v = true ->
                csrfToken (snd (makeRequest method params data w)) = v)
  /\ (truthy_opt (prop j "newCsrfToken") = false ->
      truthy_opt (prop j "csrfToken") = false ->
      csrfToken (snd (makeRequest method params data w)) = csrfToken w).
Proof.
  intros Hs He.
  assert (Hj : j <> JNull) by (intros ->; discriminate He).
  destruct (makeRequest_answered _ _ _ _ _ Hs Hj) as (Ht & Hr & _).
  rewrite Hr, He, Ht. unfold token_after. repeat split.
  - intros v Hv Htv. rewrite Hv. cbn. now rewrite Htv.
  - intros Hn Hc. now rewrite Hn, Hc.
Qed.

Lemma http_error_thrown_witness :
  let w := ClientSamples.answering ClientSamples.unavailable in
  answer "GET" [] None w = ClientSamples.unavailable
  /\ (503 < 200 \/ 299 < 503)
  /\ fst (makeRequest "GET" [] None w)
     = Throw (Error "Erreur HTTP: 503 Service Unavailable")
  /\ csrfToken (snd (makeRequest "GET" [] None w)) = JStr "held"
  /\ lastError (snd (makeRequest "GET" [] None w))
     = JStr "Erreur HTTP: 503 Service Unavailable".
Proof.
  intros w. split; [reflexivity|]. split; [right; lia|].
  refine (http_error_thrown "GET" [] None w _ eq_refl _). right. cbn. lia.
Defined.

Lemma invalid_format_thrown_witness :
  let w := ClientSamples.answering ClientSamples.html_page in
  answer "GET" [] None w = ClientSamples.html_page
  /\ 200 <= 200 <= 299
  /\ fst (makeRequest "GET" [] None w) = Throw (Error "Format de réponse invalide")
  /\ csrfToken (snd (makeRequest "GET" [] None w)) = JStr "held"
  /\ lastError (snd (makeRequest "GET" [] None w)) = JStr "Format de réponse invalide".
Proof.
  intros w. split; [reflexivity|]. split; [lia|].
  refine (invalid_format_thrown "GET" [] None w _ eq_refl _ eq_refl). cbn. lia.
Defined.

Lemma network_failure_rethrown_witness :
  let w := ClientSamples.answering (Rejected "Failed to fetch") in
  answer "POST" [] (Some 0%nat) w = Rejected "Failed to fetch"
  /\ fst (makeRequest "POST" [] (Some 0%nat) w) = Throw (TypeError "Failed to fetch")
  /\ csrfToken (snd (makeRequest "POST" [] (Some 0%nat) w)) = JStr "held"
  /\ lastError (snd (makeRequest "POST" [] (Some 0%nat) w)) = JStr "Failed to fetch".
Proof.
  intros w. split; [reflexivity|].
  exact (network_failure_rethrown "POST" [] (Some 0%nat) w "Failed to fetch" eq_refl).
Defined.

Lemma error_envelope_still_rotates_witness :
  let w := ClientSamples.answering (ClientSamples.replies ClientSamples.rotating_error) in
  succeeds_with (answer "GET" [] None w) ClientSamples.rotating_error
  /\ error_envelope ClientSamples.rotating_error = true
  /\ fst (makeRequest "GET" [] None w) = Throw (Error "quota")
  /\ csrfToken (snd (makeRequest "GET" [] None w)) = JStr "rotated".
Proof.
  intros w.
  assert (Hs : succeeds_with (answer "GET" [] None w) ClientSamples.rotating_error).
  { eexists. repeat split. }
  split; [exact Hs|]. split; [reflexivity|].
  destruct (error_envelope_still_rotates "GET" [] None w _ Hs eq_refl) as (Hr & Hn & _).
  split; [exact Hr | exact (Hn (JStr "rotated") eq_refl eq_refl)].
Defined.

(** *** The call [makeRequest] builds *)

Lemma query_param_to_query (k : string) (params : object) :
  query_param k (to_query params) = option_map ToString (assoc k params).
Proof.
  induction params as [|[k' v] params IH]; [reflexivity|].
  cbn. destruct (String.eqb k k'); [reflexivity | exact IH].
Qed.

(** X13: [makeRequest] makes exactly one call, to [API_URL], with the
    method it was given, [mode: cors] and [credentials: omit]; its query
    always has an [origin]: the caller's when it is truthy, the page
    origin otherwise; every other parameter of the caller is passed on
    as a string. *)
Theorem one_call_with_origin method params data (w : World) :
  exists c,
    fetch_calls (trace (snd (makeRequest method params data w)))
    = fetch_calls (trace w) ++ [c]
    /\ url c = API_URL /\ fetch_method c = method
    /\ mode c = "cors" /\ credentials c = "omit"
    /\ query_param "origin" (query c)
       = Some (if truthy_opt (assoc "origin" params)
               then ToString (default JNull (assoc "origin" params))
               else location_origin w)
    /\ (forall k, k <> "origin" ->
                  query_param k (query c) = option_map ToString (assoc k params)).
Proof.
  destruct (makeRequest_frame method params data w) as (_ & Ht & _).
  exists (issued method params data w). split; [exact Ht|].
  unfold issued, request. cbn [url fetch_method mode credentials query].
  repeat split.
  - rewrite query_param_to_query. unfold with_origin.
    destruct (assoc "origin" params) as [v|] eqn:E; cbn [truthy_opt default].
    + destruct (truthy v); [now rewrite E|].
      now rewrite assoc_set_prop_eq.
    + now rewrite assoc_set_prop_eq.
  - intros k Hk. rewrite query_param_to_query. unfold with_origin.
    destruct (truthy_opt (assoc "origin" params)); [reflexivity|].
    now rewrite assoc_set_prop_ne.
Qed.

Lemma set_prop_idem (k : string) (v : json) (o : object) :
  set_prop k v (set_prop k v o) = set_prop k v o.
Proof.
  induction o as [|[k' v'] o IH]; cbn.
  - now rewrite String.eqb_refl.
  - destruct (String.eqb k k') eqn:E; cbn.
    + now rewrite String.eqb_refl.
    + now rewrite E, IH.
Qed.

Lemma with_origin_idem (origin : string) (o : object) :
  with_origin origin (with_origin origin o) = with_origin origin o.
Proof.
  unfold with_origin at 2 3. destruct (truthy_opt (assoc "origin" o)) eqn:E.
  - unfold with_origin. now rewrite E.
  - unfold with_origin. rewrite assoc_set_prop_eq. cbn [truthy_opt].
    destruct (truthy (JStr origin)); [reflexivity | apply set_prop_idem].
Qed.

(** X14: a call that is not a POST, or that has no data, made on a
    [params] object of the caller, sends no body and no [Content-Type],
    and writes into one object only, [params]: it gains an [origin], the
    page origin, when it had no truthy one, and is left as it was
    otherwise; the query carries the object as it then is.  Every other
    object of the caller is left as it was. *)
Theorem no_body_without_post_data method (p : loc) data (o : object) (w : World) :
  heap w !! p = Some o ->
  method <> "POST" \/ data = None ->
  heap (snd (makeRequest_on method p data w))
  = (if truthy_opt (assoc "origin" o) then heap w
     else <[p := set_prop "origin" (JStr (location_origin w)) o]> (heap w))
  /\ (forall l, l <> p ->
        heap (snd (makeRequest_on method p data w)) !! l = heap w !! l)
  /\ exists c,
       fetch_calls (trace (snd (makeRequest_on method p data w)))
       = fetch_calls (trace w) ++ [c]
       /\ fetch_body c = None
       /\ fetch_headers c = [("User-Agent", "FeteVoisinsClient/1.0")]
       /\ query c = to_query (with_origin (location_origin w) o).
Proof.
  intros Hp H.
  assert (Hb : body_object method data = None).
  { destruct H as [H | ->]; [|reflexivity].
    destruct data; [|reflexivity]. cbn.
    now destruct (String.eqb_spec method "POST"). }
  unfold makeRequest_on, deref, mbind, M_bind, bind, get. cbn [fst snd].
  rewrite Hp. change (default [] (Some o)) with o.
  destruct (truthy_opt (assoc "origin" o)) eqn:E.
  - unfold mret, M_ret, ret. cbn [fst snd].
    destruct (makeRequest_frame method (with_origin (location_origin w) o) data w)
      as (Hh & Ht & _).
    rewrite Hh, Ht. unfold heap_after, issued. rewrite Hb.
    split; [reflexivity|]. split; [reflexivity|].
    eexists. split; [reflexivity|]. do 2 (split; [reflexivity|]).
    cbn [query request]. now rewrite with_origin_idem.
  - unfold set_heap. cbn [fst snd].
    match goal with
    | |- context [makeRequest _ _ _ ?w1] =>
        destruct (makeRequest_frame method (with_origin (location_origin w) o) data w1)
          as (Hh & Ht & _)
    end.
    rewrite Hh, Ht. unfold heap_after, issued. rewrite Hb.
    cbn [heap trace location_origin].
    split; [reflexivity|].
    split; [intros l Hl; now rewrite lookup_insert_ne|].
    eexists. split; [reflexivity|]. do 2 (split; [reflexivity|]).
    cbn [query request location_origin]. now rewrite with_origin_idem.
Qed.

Lemma no_body_without_post_data_witness :
  let w := ClientSamples.answering (ClientSamples.replies (JObj [])) in
  heap w !! 0%nat = Some ClientSamples.form
  /\ ("GET" <> "POST" \/ (None : option nat) = None)
  /\ heap (snd (makeRequest_on "GET" 0%nat None w)) !! 0%nat
     = Some (ClientSamples.form ++ [("origin", JStr (location_origin w))])
  /\ exists c,
       fetch_calls (trace (snd (makeRequest_on "GET" 0%nat None w)))
       = fetch_calls (trace w) ++ [c]
       /\ fetch_body c = None
       /\ fetch_headers c = [("User-Agent", "FeteVoisinsClient/1.0")]
       /\ query c = to_query (with_origin (location_origin w) ClientSamples.form).
Proof.
  intros w.
  assert (H : "GET" <> "POST" \/ (None : option nat) = None) by (right; reflexivity).
  split; [reflexivity|]. split; [exact H|].
  destruct (no_body_without_post_data "GET" 0%nat None ClientSamples.form w eq_refl H)
    as (Hh & _ & Hc).
  split; [rewrite Hh; reflexivity | exact Hc].
Defined.

(** The same object given as [params] and as [data] of a POST receives
    the origin first, then the token: the query is built before the
    token is written, the body after. *)
Example params_and_data_shared :
  let w := ClientSamples.answering (ClientSamples.replies (JObj [])) in
  let w' := snd (makeRequest_on "POST" 0%nat (Some 0%nat) w) in
  heap w' !! 0%nat
  = Some (ClientSamples.form
            ++ [("origin", JStr (location_origin w)); ("csrfToken", JStr "held")])
  /\ (exists c, fetch_calls (trace w') = [c]
        /\ query c = to_query (ClientSamples.form
                                 ++ [("origin", JStr (location_origin w))])
        /\ fetch_body c
           = Some (Stringified
                     (JObj (ClientSamples.form
                              ++ [("origin", JStr (location_origin w));
                                  ("csrfToken", JStr "held")])))).
Proof.
  split; [reflexivity|]. eexists. repeat split.
Qed.

(** X15: [makeRequest] records every failure: whenever it throws, the
    last error is the message of the thrown error (or
    [Erreur de communication] for an empty message); whenever it
    returns, the last error is left as it was. *)
Theorem failure_recorded method params data (w : World) :
  (forall e, fst (makeRequest method params data w) = Throw e ->
     lastError (snd (makeRequest method params data w))
     = JStr (if String.eqb (message_of e) "" then "Erreur de communication"
             else message_of e))
  /\ (forall v, fst (makeRequest method params data w) = Return v ->
        lastError (snd (makeRequest method params data w)) = lastError w).
Proof.
  destruct (answer_cases (answer method params data w))
    as [m Ha | r Ha Hok | r Ha Hok Hp | r Ha Hok Hp | j Hs Hj].
  - destruct (makeRequest_rejected_run _ _ _ _ _ Ha) as (Hr & _ & Hl).
    rewrite Hr, Hl. split; [intros e [= <-]; reflexivity | discriminate].
  - destruct (makeRequest_status_run _ _ _ _ _ Ha Hok) as (Hr & _ & Hl).
    rewrite Hr, Hl. split; [intros e [= <-]; reflexivity | discriminate].
  - destruct (makeRequest_syntax_run _ _ _ _ _ Ha Hok Hp) as (Hr & _ & Hl).
    rewrite Hr, Hl. split; [intros e [= <-]; reflexivity | discriminate].
  - destruct (makeRequest_null_run _ _ _ _ _ Ha Hok Hp) as (Hr & _ & Hl).
    rewrite Hr, Hl. split; [intros e [= <-]; reflexivity | discriminate].
  - destruct (makeRequest_answered _ _ _ _ _ Hs Hj) as (_ & Hr & _).
    rewrite Hr, (makeRequest_answered_lastError _ _ _ _ _ Hs Hj).
    destruct (error_envelope j); split;
      try discriminate; [intros e [= <-]|intros v _]; reflexivity.
Qed.

(** *** How the client evolves *)

Lemma evolves_refl (w : World) : evolves 0 0 w w.
Proof.
  repeat split; auto. exists []. rewrite app_nil_r. repeat split; cbn; lia.
Qed.

Lemma posts_app (cs ds : list FetchCall) : posts (cs ++ ds) = posts cs ++ posts ds.
Proof. unfold posts. apply List.filter_app. Qed.

Lemma evolves_trans (n p n' p' : nat) (w w' w'' : World) :
  evolves n p w w' -> evolves n' p' w' w'' -> evolves (n + n') (p + p') w w''.
Proof.
  intros (Hn & Ho & Ht & Hi & cs & Hc & Hl & Hp)
         (Hn' & Ho' & Ht' & Hi' & cs' & Hc' & Hl' & Hp').
  repeat split.
  - congruence.
  - congruence.
  - destruct Ht' as [E | T]; [rewrite E; exact Ht | now right].
  - destruct Hi' as [E | [E T]]; [|now right].
    destruct Hi as [E0 | [E0 T0]]; [left; congruence | right].
    split; [congruence|]. destruct Ht' as [Et | Tt]; [now rewrite Et | exact Tt].
  - exists (cs ++ cs'). rewrite Hc', Hc, app_assoc.
    rewrite posts_app, !length_app. repeat split; lia.
Qed.

Lemma evolves_weaken (n p n' p' : nat) (w w' : World) :
  (n <= n')%nat -> (p <= p')%nat -> evolves n p w w' -> evolves n' p' w w'.
Proof.
  intros Hn Hp (H1 & H2 & H3 & H4 & cs & Hc & Hl & Hq).
  repeat split; auto. exists cs. repeat split; auto; lia.
Qed.

Section Runs.
Context {A B : Type}.

Lemma runs_weaken (n p n' p' : nat) (m : M A) (w : World) :
  (n <= n')%nat -> (p <= p')%nat -> runs n p m w -> runs n' p' m w.
Proof. unfold runs. apply evolves_weaken. Qed.

Lemma runs_ret (a : A) (w : World) : runs 0 0 (mret a : M A) w.
Proof. apply evolves_refl. Qed.

Lemma runs_throw (e : exn) (w : World) : runs 0 0 (throw e : M A) w.
Proof. apply evolves_refl. Qed.

Lemma runs_lift (r : Result A) (w : World) : runs 0 0 (lift r) w.
Proof. apply evolves_refl. Qed.

Lemma runs_bind (n p n' p' : nat) (m : M A) (f : A -> M B) (w : World) :
  runs n p m w ->
  (forall a, fst (m w) = Return a -> runs n' p' (f a) (snd (m w))) ->
  runs (n + n') (p + p') (m ≫= f) w.
Proof.
  unfold runs, mbind, M_bind, bind. intros Hm Hf.
  destruct (m w) as [[a | e] w'] eqn:E; cbn [fst snd] in *.
  - eapply evolves_trans; [exact Hm | now apply Hf].
  - eapply evolves_weaken; [| | exact Hm]; lia.
Qed.

Lemma runs_try_catch (n p n' p' : nat) (m : M A) (h : exn -> M A) (w : World) :
  runs n p m w ->
  (forall e, fst (m w) = Throw e -> runs n' p' (h e) (snd (m w))) ->
  runs (n + n') (p + p') (try_catch m h) w.
Proof.
  unfold runs, try_catch. intros Hm Hh.
  destruct (m w) as [[a | e] w'] eqn:E; cbn [fst snd] in *.
  - eapply evolves_weaken; [| | exact Hm]; lia.
  - eapply evolves_trans; [exact Hm | now apply Hh].
Qed.

End Runs.

Lemma runs_set_lastError (v : json) (w : World) : runs 0 0 (set_lastError v) w.
Proof.
  unfold runs, set_lastError, evolves. cbn. repeat split; auto.
  exists []. rewrite app_nil_r. repeat split; cbn; lia.
Qed.

Lemma runs_console (label : string) (w : World) : runs 0 0 (emit (ConsoleError label)) w.
Proof.
  unfold runs, emit, evolves. cbn. repeat split; auto.
  exists []. rewrite fetch_calls_app. repeat split; cbn; lia.
Qed.

Lemma runs_dispatch (name : string) (d : option json) (w : World) :
  runs 0 0 (emit (Dispatched name d)) w.
Proof.
  unfold runs, emit, evolves. cbn. repeat split; auto.
  exists []. rewrite fetch_calls_app. repeat split; cbn; lia.
Qed.

Lemma runs_set_csrfToken (v : json) (w : World) :
  truthy v = true -> runs 0 0 (set_csrfToken v) w.
Proof.
  intros Hv. unfold runs, set_csrfToken, evolves. cbn. repeat split; auto.
  exists []. rewrite app_nil_r. repeat split; cbn; lia.
Qed.

Lemma runs_set_isInitialized (w : World) :
  truthy (csrfToken w) = true -> runs 0 0 (set_isInitialized true) w.
Proof.
  intros Hv. unfold runs, set_isInitialized, evolves. cbn. repeat split; auto.
  exists []. rewrite app_nil_r. repeat split; cbn; lia.
Qed.

Lemma runs_get (w : World) : runs 0 0 get w.
Proof. apply evolves_refl. Qed.

(** The handlers of the [catch] blocks that rethrow. *)
Lemma runs_handler {A} (v : json) (label : string) (e : exn) (w : World) :
  runs 0 0 (set_lastError v;; emit (ConsoleError label);; (throw e : M A)) w.
Proof.
  apply (runs_bind 0 0 0 0); [apply runs_set_lastError|]. intros _ _.
  apply (runs_bind 0 0 0 0); [apply runs_console|]. intros _ _. apply runs_throw.
Qed.

Lemma runs_makeRequest method params data (w : World) :
  runs 1 (if String.eqb method "POST" then 1 else 0) (makeRequest method params data) w.
Proof.
  unfold runs, evolves.
  destruct (makeRequest_frame method params data w) as (_ & Ht & Hi & Ho & Hn).
  repeat split; auto.
  - apply makeRequest_token.
  - exists [issued method params data w]. split; [exact Ht|].
    unfold posts, issued, request. cbn.
    destruct (String.eqb method "POST"); cbn; split; lia.
Qed.

(** *** [refreshCsrfToken] and [init], step by step *)

Lemma refresh_unfold (w : World) :
  refreshCsrfToken w
  = match makeRequest "GET" (refresh_params w) None w with
    | (Return v, w1) =>
        if truthy v && truthy_opt (prop v "csrfToken")
        then (Return true, snd (set_csrfToken (default JNull (prop v "csrfToken")) w1))
        else (set_lastError
                (JStr "Erreur de rafraîchissement du jeton: Pas de jeton CSRF dans la réponse");;
              emit (ConsoleError "Erreur lors du rafraîchissement du jeton CSRF:");;
              throw (Error "Pas de jeton CSRF dans la réponse")) w1
    | (Throw e, w1) =>
        (set_lastError
           (JStr ("Erreur de rafraîchissement du jeton: "
                    +:+ or_else (message_of e) "Erreur inconnue"));;
         emit (ConsoleError "Erreur lors du rafraîchissement du jeton CSRF:");;
         throw e) w1
    end.
Proof.
  unfold refreshCsrfToken, refresh_params. run.
  destruct (makeRequest _ _ _ w) as [[v | e] w1]; [|reflexivity].
  destruct (truthy v && truthy_opt (prop v "csrfToken")); reflexivity.
Qed.

Lemma runs_refresh (w : World) : runs 1 0 refreshCsrfToken w.
Proof.
  unfold refreshCsrfToken.
  apply (runs_try_catch 1 0 0 0).
  - apply (runs_bind 0 0 1 0); [apply runs_get|]. intros w0 _.
    apply (runs_bind 1 0 0 0); [apply (runs_makeRequest "GET")|]. intros v _.
    destruct (truthy v && truthy_opt (prop v "csrfToken")) eqn:C.
    + apply (runs_bind 0 0 0 0); [|intros; apply runs_ret].
      apply runs_set_csrfToken. apply andb_prop in C as [_ C].
      destruct (prop v "csrfToken"); [exact C | discriminate C].
    + apply runs_throw.
  - intros e _. apply runs_handler.
Qed.

(** [refreshCsrfToken] returns exactly when Upstream issues a token,
    which it then holds. *)
Lemma refresh_when_issued (w : World) (v : json) :
  issues_token (refresh_answer w) v ->
  fst (refreshCsrfToken w) = Return true
  /\ csrfToken (snd (refreshCsrfToken w)) = v
  /\ lastError (snd (refreshCsrfToken w)) = lastError w
  /\ trace (snd (refreshCsrfToken w))
     = trace (snd (makeRequest "GET" (refresh_params w) None w)).
Proof.
  intros (j & Hs & He & Hv & Ht).
  assert (Hj : j <> JNull) by (intros ->; discriminate Hv).
  unfold refresh_answer in Hs. fold (refresh_params w) in Hs.
  destruct (makeRequest_answered _ _ _ _ _ Hs Hj) as (_ & Hr & _).
  pose proof (makeRequest_answered_lastError _ _ _ _ _ Hs Hj) as Hl.
  rewrite refresh_unfold.
  destruct (makeRequest "GET" (refresh_params w) None w) as [res w1].
  cbn [fst snd] in *. rewrite He in Hr, Hl. subst res.
  assert (Htj : truthy j = true) by (destruct j; try discriminate Hv; reflexivity).
  rewrite Htj, Hv. cbn [truthy_opt default andb]. rewrite Ht. cbn. auto.
Qed.

Lemma refresh_only_when_issued (w : World) (b : bool) :
  fst (refreshCsrfToken w) = Return b ->
  exists v, issues_token (refresh_answer w) v.
Proof.
  rewrite refresh_unfold.
  destruct (makeRequest "GET" (refresh_params w) None w) as [[j | e] w1] eqn:E;
    [|discriminate].
  destruct (truthy j && truthy_opt (prop j "csrfToken")) eqn:C; [|discriminate].
  intros _. apply andb_prop in C as [_ C].
  destruct (prop j "csrfToken") as [v|] eqn:Hv; [|discriminate C].
  destruct (makeRequest_returns "GET" (refresh_params w) None w j) as (Hs & _ & He).
  { now rewrite E. }
  exists v, j. auto.
Qed.

Lemma refresh_failure_message (w : World) (e : exn) :
  fst (refreshCsrfToken w) = Throw e ->
  lastError (snd (refreshCsrfToken w))
  = JStr ("Erreur de rafraîchissement du jeton: "
            +:+ or_else (message_of e) "Erreur inconnue").
Proof.
  rewrite refresh_unfold.
  destruct (makeRequest "GET" (refresh_params w) None w) as [[j | e'] w1].
  - destruct (truthy j && truthy_opt (prop j "csrfToken")); [discriminate|].
    intros [= <-]. reflexivity.
  - intros [= <-]. reflexivity.
Qed.

Lemma init_unfold (w : World) :
  init w
  = match refreshCsrfToken w with
    | (Return _, w1) =>
        (Return true,
         snd (emit (Dispatched "fete-voisins-api-ready" None)
                   (snd (set_isInitialized true w1))))
    | (Throw e, w1) =>
        (Return false,
         snd ((set_lastError (JStr (or_else (message_of e) "Erreur d'initialisation"));;
               emit (ConsoleError "Erreur lors de l'initialisation de l'API:");;
               emit (Dispatched "fete-voisins-api-error"
                       (Some (JObj [("error",
                                     JStr (or_else (message_of e)
                                                   "Erreur d'initialisation"))]))))
                w1))
    end.
Proof.
  unfold init. run. unfold set_isInitialized.
  destruct (refreshCsrfToken w) as [[b | e] w1]; reflexivity.
Qed.

Lemma refresh_returned_token (w : World) (b : bool) :
  fst (refreshCsrfToken w) = Return b ->
  truthy (csrfToken (snd (refreshCsrfToken w))) = true.
Proof.
  intros Hr. destruct (refresh_only_when_issued w b Hr) as (v & Hv).
  destruct (refresh_when_issued w v Hv) as (_ & -> & _).
  destruct Hv as (j & _ & _ & _ & Ht). exact Ht.
Qed.

Lemma runs_init (w : World) : runs 1 0 init w.
Proof.
  unfold init.
  apply (runs_try_catch 1 0 0 0).
  - apply (runs_bind 1 0 0 0); [apply runs_refresh|]. intros b Hb.
    apply (runs_bind 0 0 0 0).
    { apply runs_set_isInitialized. exact (refresh_returned_token w b Hb). }
    intros _ _. apply (runs_bind 0 0 0 0); [apply runs_dispatch|].
    intros _ _. apply runs_ret.
  - intros e _.
    apply (runs_bind 0 0 0 0); [apply runs_set_lastError|]. intros _ _.
    apply (runs_bind 0 0 0 0); [apply runs_console|]. intros _ _.
    apply (runs_bind 0 0 0 0); [apply runs_dispatch|]. intros _ _. apply runs_ret.
Qed.

Lemma refresh_frame (w : World) :
  fetch_calls (trace (snd (refreshCsrfToken w)))
  = fetch_calls (trace w) ++ [issued "GET" (refresh_params w) None w]
  /\ heap (snd (refreshCsrfToken w)) = heap w
  /\ isInitialized (snd (refreshCsrfToken w)) = isInitialized w.
Proof.
  destruct (makeRequest_frame "GET" (refresh_params w) None w) as (Hh & Ht & Hi & _).
  rewrite refresh_unfold.
  destruct (makeRequest "GET" (refresh_params w) None w) as [[j | e] w1];
    cbn [fst snd] in *.
  - destruct (truthy j && truthy_opt (prop j "csrfToken")); run;
      rewrite ?fetch_calls_app; cbn; rewrite ?app_nil_r; auto.
  - run. rewrite ?fetch_calls_app; cbn; rewrite ?app_nil_r; auto.
Qed.

Lemma init_frame (w : World) :
  fetch_calls (trace (snd (init w)))
  = fetch_calls (trace w) ++ [issued "GET" (refresh_params w) None w]
  /\ heap (snd (init w)) = heap w.
Proof.
  destruct (refresh_frame w) as (Ht & Hh & _).
  rewrite init_unfold.
  destruct (refreshCsrfToken w) as [[b | e] w1]; cbn [fst snd] in *;
    unfold set_isInitialized; run;
    rewrite ?fetch_calls_app; cbn; rewrite ?app_nil_r; auto.
Qed.

Lemma issued_refresh (w : World) :
  issued "GET" (refresh_params w) None w
  = {| url := API_URL; query := [("origin", location_origin w)];
       fetch_method := "GET";
       fetch_headers := [("User-Agent", "FeteVoisinsClient/1.0")];
       mode := "cors"; credentials := "omit"; fetch_body := None |}.
Proof.
  unfold issued, request, refresh_params, with_origin. cbn.
  destruct (String.eqb (location_origin w) ""); reflexivity.
Qed.

(** X16: [refreshCsrfToken] makes exactly one call, a GET without body
    whose only parameter is the page origin, and touches no object of
    the caller; when it fails, the last error is the message of the
    failure behind the prefix [Erreur de rafraîchissement du jeton: ]. *)
Theorem refresh_is_one_get (w : World) :
  fetch_calls (trace (snd (refreshCsrfToken w)))
  = fetch_calls (trace w)
    ++ [{| url := API_URL; query := [("origin", location_origin w)];
           fetch_method := "GET";
           fetch_headers := [("User-Agent", "FeteVoisinsClient/1.0")];
           mode := "cors"; credentials := "omit"; fetch_body := None |}]
  /\ heap (snd (refreshCsrfToken w)) = heap w
  /\ (forall e, fst (refreshCsrfToken w) = Throw e ->
        lastError (snd (refreshCsrfToken w))
        = JStr ("Erreur de rafraîchissement du jeton: "
                  +:+ (if String.eqb (message_of e) "" then "Erreur inconnue"
                       else message_of e))).
Proof.
  destruct (refresh_frame w) as (Ht & Hh & _).
  rewrite Ht, issued_refresh. repeat split; [exact Hh|].
  apply refresh_failure_message.
Qed.

(** X17: [init] never throws.  It returns [true] exactly when Upstream
    issues a token (a 2xx JSON body, no error envelope, with a truthy
    [csrfToken]): the client is then initialized, holds that token and
    has signalled [fete-voisins-api-ready] last.  Otherwise it returns
    [false], leaves [isInitialized] as it was, records a message and
    signals [fete-voisins-api-error] with that message as detail. *)
Theorem init_reports_token (w : World) :
  (exists b, fst (init w) = Return b)
  /\ (forall v, issues_token (refresh_answer w) v ->
        fst (init w) = Return true
        /\ isInitialized (snd (init w)) = true
        /\ csrfToken (snd (init w)) = v
        /\ exists t, trace (snd (init w))
                     = t ++ [Dispatched "fete-voisins-api-ready" None])
  /\ ((forall v, ~ issues_token (refresh_answer w) v) ->
        fst (init w) = Return false
        /\ isInitialized (snd (init w)) = isInitialized w
        /\ exists msg t,
             lastError (snd (init w)) = JStr msg
             /\ trace (snd (init w))
                = t ++ [Dispatched "fete-voisins-api-error"
                          (Some (JObj [("error", JStr msg)]))]).
Proof.
  split; [|split].
  - rewrite init_unfold. destruct (refreshCsrfToken w) as [[b | e] w1]; eauto.
  - intros v Hv. destruct (refresh_when_issued w v Hv) as (Hr & Htok & _).
    rewrite init_unfold.
    destruct (refreshCsrfToken w) as [res w1]. cbn [fst snd] in *. subst res.
    unfold set_isInitialized. run. repeat split; [assumption|]. eauto.
  - intros Hno. pose proof (refresh_only_when_issued w) as Honly.
    destruct (refresh_frame w) as (_ & _ & Hi).
    rewrite init_unfold.
    destruct (refreshCsrfToken w) as [[b | e] w1]; cbn [fst snd] in *.
    + destruct (Honly b eq_refl) as (v & Hv). destruct (Hno v Hv).
    + run. repeat split; [assumption|].
      eexists. exists (trace w1 ++ [ConsoleError "Erreur lors de l'initialisation de l'API:"]).
      split; reflexivity.
Qed.

Lemma init_reports_token_witness :
  let w := constructed ClientSamples.page
             (fun _ _ => ClientSamples.replies (JObj [("csrfToken", JStr "issued")]))
             ∅ in
  issues_token (refresh_answer w) (JStr "issued")
  /\ fst (init w) = Return true
  /\ isInitialized (snd (init w)) = true
  /\ csrfToken (snd (init w)) = JStr "issued"
  /\ exists t, trace (snd (init w)) = t ++ [Dispatched "fete-voisins-api-ready" None].
Proof.
  intros w.
  assert (Hv : issues_token (refresh_answer w) (JStr "issued")).
  { exists (JObj [("csrfToken", JStr "issued")]). repeat split.
    eexists. repeat split. }
  split; [exact Hv|].
  exact (proj1 (proj2 (init_reports_token w)) (JStr "issued") Hv).
Defined.

(** *** [submitContribution] and [getContributions], step by step *)

Lemma runs_token_rejected (response : json) (w : World) :
  runs 0 0 (token_rejected response) w.
Proof.
  unfold token_rejected.
  destruct (prop response "error") as [[| | | | |]|];
    try apply runs_ret; try apply runs_throw;
    cbn [truthy]; try (destruct (_ : bool)); apply runs_ret || apply runs_throw.
Qed.

Lemma runs_lazy_init (w : World) :
  runs (if isInitialized w then 0 else 1) 0
       (if isInitialized w then mret false else init) w.
Proof.
  destruct (isInitialized w); [apply runs_ret | apply runs_init].
Qed.

Lemma get_returns (w w0 : World) : fst (get w) = Return w0 -> w0 = w.
Proof. now intros [= <-]. Qed.

Lemma runs_submit_try (formData : option loc) (w : World) :
  runs ((if isInitialized w then 0 else 1) + 2) 1
    (try_catch
       (w ← get;
        (if isInitialized w then mret false else init);;
        w ← get;
        lift (validateFormData (view (heap w) formData));;
        response ← makeRequest "POST" [] formData;
        again ← token_rejected response;
        if again : bool then refreshCsrfToken;; mret Resubmit
        else mret (Done response))
       (fun error =>
          set_lastError
            (JStr ("Erreur lors de l'envoi de la contribution: "
                     +:+ or_else (message_of error) "Erreur inconnue"));;
          emit (ConsoleError "Erreur lors de l'envoi de la contribution:");;
          throw error)) w.
Proof.
  eapply runs_weaken; cycle 2.
  - apply runs_try_catch.
    + apply runs_bind; [apply runs_get|]. intros w0 ->%get_returns.
      apply runs_bind; [apply runs_lazy_init|]. intros _ _.
      apply runs_bind; [apply runs_get|]. intros w1 _.
      apply runs_bind; [apply runs_lift|]. intros _ _.
      apply runs_bind; [apply (runs_makeRequest "POST")|]. intros response _.
      apply (runs_bind 0 0 1 0); [apply runs_token_rejected|]. intros again _.
      destruct again.
      * apply (runs_bind 1 0 0 0); [apply runs_refresh | intros; apply runs_ret].
      * eapply runs_weaken; [| |apply runs_ret]; lia.
    + intros e _. apply runs_handler.
  - cbn. lia.
  - cbn. lia.
Qed.

Lemma runs_submit (formData : option loc) (w : World) :
  runs ((if isInitialized w then 0 else 1) + 3) 2 (submitContribution formData) w.
Proof.
  unfold submitContribution.
  eapply runs_weaken; cycle 2.
  - apply (runs_bind ((if isInitialized w then 0 else 1) + 2) 1 1 1);
      [apply runs_submit_try|].
    intros [response|] _; [eapply runs_weaken; [| |apply runs_ret]; lia|].
    apply (runs_makeRequest "POST").
  - lia.
  - lia.
Qed.

Lemma runs_getContributions (w : World) :
  runs ((if isInitialized w then 0 else 1) + 1) 0 getContributions w.
Proof.
  unfold getContributions.
  eapply runs_weaken; cycle 2.
  - apply runs_try_catch.
    + apply runs_bind; [apply runs_get|]. intros w0 ->%get_returns.
      apply runs_bind; [apply runs_lazy_init|]. intros _ _.
      apply (runs_bind 1 0 0 0); [apply (runs_makeRequest "GET")|]. intros response _.
      destruct (truthy response && is_string (prop response "result") "success"
                && is_array (prop response "data"));
        [apply runs_ret | apply runs_throw].
    + intros e _. apply runs_handler.
  - cbn. lia.
  - cbn. lia.
Qed.

(** *** Invariants of the client *)

Lemma evolves_token (n p : nat) (w w' : World) :
  evolves n p w w' ->
  truthy (csrfToken w) = true -> truthy (csrfToken w') = true.
Proof.
  intros (_ & _ & [E | T] & _) H; [now rewrite E | exact T].
Qed.

Lemma evolves_null_or_truthy (n p : nat) (w w' : World) :
  evolves n p w w' ->
  csrfToken w = JNull \/ truthy (csrfToken w) = true ->
  csrfToken w' = JNull \/ truthy (csrfToken w') = true.
Proof.
  intros (_ & _ & [E | T] & _) H; [now rewrite E | now right].
Qed.

Lemma evolves_invariant (n p : nat) (w w' : World) :
  evolves n p w w' -> token_invariant w -> token_invariant w'.
Proof.
  intros (_ & _ & Ht & [E | [_ T]] & _) Hinv Hi; [|exact T].
  rewrite E in Hi. specialize (Hinv Hi).
  destruct Ht as [Et | Tt]; [now rewrite Et | exact Tt].
Qed.

(** X18: a token once held is never lost: whatever the network answers,
    after [makeRequest], [refreshCsrfToken], [init], [getContributions]
    or [submitContribution] a client that held a truthy token still
    holds one (the assignments at lines 65, 146 and 149 are all guarded
    by the truthiness of the new value). *)
Theorem token_never_lost (w : World) :
  truthy (csrfToken w) = true ->
  (forall method params data,
      truthy (csrfToken (snd (makeRequest method params data w))) = true)
  /\ truthy (csrfToken (snd (refreshCsrfToken w))) = true
  /\ truthy (csrfToken (snd (init w))) = true
  /\ truthy (csrfToken (snd (getContributions w))) = true
  /\ (forall formData,
        truthy (csrfToken (snd (submitContribution formData w))) = true).
Proof.
  intros H. repeat split; intros.
  - exact (evolves_token _ _ _ _ (runs_makeRequest method params data w) H).
  - exact (evolves_token _ _ _ _ (runs_refresh w) H).
  - exact (evolves_token _ _ _ _ (runs_init w) H).
  - exact (evolves_token _ _ _ _ (runs_getContributions w) H).
  - exact (evolves_token _ _ _ _ (runs_submit formData w) H).
Qed.

Lemma token_never_lost_witness :
  let w := ClientSamples.answering ClientSamples.unavailable in
  truthy (csrfToken w) = true
  /\ truthy (csrfToken (snd (refreshCsrfToken w))) = true
  /\ truthy (csrfToken (snd (submitContribution (Some 0%nat) w))) = true.
Proof.
  intros w. split; [reflexivity|].
  destruct (token_never_lost w eq_refl) as (_ & Hr & _ & _ & Hs).
  split; [exact Hr | exact (Hs (Some 0%nat))].
Defined.

(** X19: in every state a page can bring its client to, the held token
    is [null] or truthy, and an initialized client holds a truthy token:
    [isInitialized] is set only after a refresh that stored one. *)
Theorem initialized_client_holds_token (w : World) :
  reachable w ->
  (csrfToken w = JNull \/ truthy (csrfToken w) = true)
  /\ (isInitialized w = true -> truthy (csrfToken w) = true).
Proof.
  induction 1 as [origin net h | w h _ IH | w _ IH | w _ IH
                  | w method params data _ IH | w _ IH | w formData _ IH].
  - split; [now left | discriminate].
  - exact IH.
  - destruct IH as [IH1 IH2]. split.
    + exact (evolves_null_or_truthy _ _ _ _ (runs_init w) IH1).
    + exact (evolves_invariant _ _ _ _ (runs_init w) IH2).
  - destruct IH as [IH1 IH2]. split.
    + exact (evolves_null_or_truthy _ _ _ _ (runs_refresh w) IH1).
    + exact (evolves_invariant _ _ _ _ (runs_refresh w) IH2).
  - destruct IH as [IH1 IH2]. split.
    + exact (evolves_null_or_truthy _ _ _ _ (runs_makeRequest method params data w) IH1).
    + exact (evolves_invariant _ _ _ _ (runs_makeRequest method params data w) IH2).
  - destruct IH as [IH1 IH2]. split.
    + exact (evolves_null_or_truthy _ _ _ _ (runs_getContributions w) IH1).
    + exact (evolves_invariant _ _ _ _ (runs_getContributions w) IH2).
  - destruct IH as [IH1 IH2]. split.
    + exact (evolves_null_or_truthy _ _ _ _ (runs_submit formData w) IH1).
    + exact (evolves_invariant _ _ _ _ (runs_submit formData w) IH2).
Qed.

Lemma initialized_client_holds_token_witness :
  let w := snd (submitContribution (Some 0%nat)
                  (constructed ClientSamples.page ClientSamples.bare_rejection
                               {[ 0%nat := ClientSamples.form ]})) in
  reachable w
  /\ isInitialized w = true
  /\ (csrfToken w = JNull \/ truthy (csrfToken w) = true)
  /\ (isInitialized w = true -> truthy (csrfToken w) = true).
Proof.
  intros w.
  assert (Hr : reachable w) by (apply reach_submit, reach_new).
  split; [exact Hr|]. split; [reflexivity|].
  exact (initialized_client_holds_token w Hr).
Defined.

(** X20: [submitContribution] never loops: whatever the network answers,
    it makes at most four calls, of which at most two are POSTs, and at
    most three calls when the client is already initialized. *)
Theorem submit_calls_bounded (formData : option loc) (w : World) :
  exists cs,
    fetch_calls (trace (snd (submitContribution formData w)))
    = fetch_calls (trace w) ++ cs
    /\ (length cs <= 4)%nat
    /\ (length (posts cs) <= 2)%nat
    /\ (isInitialized w = true -> (length cs <= 3)%nat).
Proof.
  destruct (runs_submit formData w) as (_ & _ & _ & _ & cs & Hc & Hl & Hp).
  exists cs. repeat split; try assumption.
  - destruct (isInitialized w); cbn in Hl; lia.
  - intros Hi. rewrite Hi in Hl. exact Hl.
Qed.

(** X21: [getContributions] makes at most two calls (one when the client
    is already initialized), and never a POST. *)
Theorem contributions_calls_bounded (w : World) :
  exists cs,
    fetch_calls (trace (snd (getContributions w))) = fetch_calls (trace w) ++ cs
    /\ (length cs <= 2)%nat
    /\ posts cs = []
    /\ (isInitialized w = true -> (length cs <= 1)%nat).
Proof.
  destruct (runs_getContributions w) as (_ & _ & _ & _ & cs & Hc & Hl & Hp).
  exists cs. repeat split; try assumption.
  - destruct (isInitialized w); cbn in Hl; lia.
  - destruct (posts cs); [reflexivity | cbn in Hp; lia].
  - intros Hi. rewrite Hi in Hl. exact Hl.
Qed.

(** *** [getContributions] *)

Lemma after_lazy_init_frame (w : World) :
  heap (after_lazy_init w) = heap w
  /\ location_origin (after_lazy_init w) = location_origin w.
Proof.
  unfold after_lazy_init. destruct (isInitialized w); [auto|].
  split; [apply init_frame | apply (runs_init w)].
Qed.

Lemma lazy_init_run (w : World) :
  exists b, (if isInitialized w then mret false else init) w
            = (Return b, after_lazy_init w).
Proof.
  unfold after_lazy_init. destruct (isInitialized w); [now exists false|].
  rewrite init_unfold. destruct (refreshCsrfToken w) as [[b | e] w1]; eauto.
Qed.

Lemma contributions_unfold (w : World) :
  getContributions w
  = match makeRequest "GET" contributions_params None (after_lazy_init w) with
    | (Return v, w1) =>
        if contributions_shape v then (Return (array_items (prop v "data")), w1)
        else contributions_catch (Error "Format de données invalide") w1
    | (Throw e, w1) => contributions_catch e w1
    end.
Proof.
  unfold getContributions, contributions_catch, contributions_shape,
    contributions_params.
  destruct (lazy_init_run w) as [b Hb].
  unfold try_catch, mbind, M_bind, bind, get. rewrite Hb.
  destruct (makeRequest _ _ _ (after_lazy_init w)) as [[v | e] w1]; [|reflexivity].
  destruct (truthy v && _ && _); reflexivity.
Qed.

Lemma issued_contributions (w : World) :
  issued "GET" contributions_params None w
  = {| url := API_URL;
       query := [("action", "getData"); ("origin", location_origin w)];
       fetch_method := "GET";
       fetch_headers := [("User-Agent", "FeteVoisinsClient/1.0")];
       mode := "cors"; credentials := "omit"; fetch_body := None |}.
Proof. reflexivity. Qed.

(** X22: on an initialized client, [getContributions] makes one GET with
    the parameters [action=getData] and [origin]; answered 2xx with
    [{result:"success", data:[...]}] it returns the elements of [data]
    and leaves the last error as it was. *)
Theorem contributions_returned (w : World) (j : json) (items : list json) :
  isInitialized w = true ->
  succeeds_with (answer "GET" contributions_params None w) j ->
  prop j "result" = Some (JStr "success") ->
  prop j "data" = Some (JArr items) ->
  fst (getContributions w) = Return items
  /\ lastError (snd (getContributions w)) = lastError w
  /\ fetch_calls (trace (snd (getContributions w)))
     = fetch_calls (trace w)
       ++ [{| url := API_URL;
              query := [("action", "getData"); ("origin", location_origin w)];
              fetch_method := "GET";
              fetch_headers := [("User-Agent", "FeteVoisinsClient/1.0")];
              mode := "cors"; credentials := "omit"; fetch_body := None |}].
Proof.
  intros Hi Hs Hres Hdata.
  assert (Hj : j <> JNull) by (intros ->; discriminate Hres).
  assert (He : error_envelope j = false) by (unfold error_envelope; now rewrite Hres).
  destruct (makeRequest_answered _ _ _ _ _ Hs Hj) as (_ & Hr & _ & Ht & _).
  pose proof (makeRequest_answered_lastError _ _ _ _ _ Hs Hj) as Hl.
  rewrite He in Hr, Hl.
  rewrite contributions_unfold. unfold after_lazy_init. rewrite Hi.
  destruct (makeRequest "GET" contributions_params None w) as [res w1].
  cbn [fst snd] in *. subst res.
  unfold contributions_shape. rewrite Hres, Hdata.
  assert (Htj : truthy j = true) by (destruct j; try discriminate Hres; reflexivity).
  rewrite Htj. cbn. rewrite Ht, issued_contributions. auto.
Qed.

Lemma contributions_returned_witness :
  let j := JObj [("result", JStr "success"); ("data", JArr [JObj ClientSamples.form])] in
  let w := ClientSamples.answering (ClientSamples.replies j) in
  isInitialized w = true
  /\ succeeds_with (answer "GET" contributions_params None w) j
  /\ prop j "result" = Some (JStr "success")
  /\ prop j "data" = Some (JArr [JObj ClientSamples.form])
  /\ fst (getContributions w) = Return [JObj ClientSamples.form].
Proof.
  intros j w.
  assert (Hs : succeeds_with (answer "GET" contributions_params None w) j).
  { eexists. repeat split. }
  split; [reflexivity|]. split; [exact Hs|]. do 2 (split; [reflexivity|]).
  exact (proj1 (contributions_returned w j _ eq_refl Hs eq_refl eq_refl)).
Defined.

(** X23: a 2xx JSON answer other than [null] that is no error envelope
    but has no [result: "success"] or no array under [data] makes
    [getContributions] throw [Format de données invalide].  The answer
    [null] never reaches that check: reading [newCsrfToken] from it in
    [makeRequest] throws a [TypeError], which [getContributions] records
    and throws again. *)
Theorem contributions_wrong_shape (w : World) (j : json) :
  isInitialized w = true ->
  succeeds_with (answer "GET" contributions_params None w) j ->
  error_envelope j = false ->
  is_string (prop j "result") "success" = false \/ is_array (prop j "data") = false ->
  (j <> JNull ->
     fst (getContributions w) = Throw (Error "Format de données invalide")
     /\ lastError (snd (getContributions w))
        = JStr "Erreur lors de la récupération des contributions: Format de données invalide")
  /\ (j = JNull ->
      exists m, m <> ""
        /\ fst (getContributions w) = Throw (TypeError m)
        /\ lastError (snd (getContributions w))
           = JStr ("Erreur lors de la récupération des contributions: " +:+ m)).
Proof.
  intros Hi Hs He Hshape. split.
  - intros Hj.
    destruct (makeRequest_answered _ _ _ _ _ Hs Hj) as (_ & Hr & _).
    rewrite He in Hr.
    rewrite contributions_unfold. unfold after_lazy_init. rewrite Hi.
    destruct (makeRequest "GET" contributions_params None w) as [res w1].
    cbn [fst snd] in *. subst res.
    assert (Hc : contributions_shape j = false).
    { unfold contributions_shape.
      destruct Hshape as [-> | ->]; [now rewrite andb_false_r | apply andb_false_r]. }
    rewrite Hc. split; reflexivity.
  - intros ->. destruct Hs as (r & Ha & Hok & Hp).
    destruct (makeRequest_null_run _ _ _ _ _ Ha Hok Hp) as (Hr & _).
    rewrite contributions_unfold. unfold after_lazy_init. rewrite Hi.
    destruct (makeRequest "GET" contributions_params None w) as [res w1].
    cbn [fst snd] in *. subst res.
    eexists. split; [|split; reflexivity]. discriminate.
Qed.

Lemma contributions_wrong_shape_witness :
  let j := JObj [("result", JStr "success"); ("data", JStr "none")] in
  let w := ClientSamples.answering (ClientSamples.replies j) in
  isInitialized w = true
  /\ succeeds_with (answer "GET" contributions_params None w) j
  /\ error_envelope j = false
  /\ (is_string (prop j "result") "success" = false \/ is_array (prop j "data") = false)
  /\ fst (getContributions w) = Throw (Error "Format de données invalide").
Proof.
  intros j w.
  assert (Hs : succeeds_with (answer "GET" contributions_params None w) j).
  { eexists. repeat split. }
  assert (Hj : j <> JNull) by discriminate.
  assert (Hd : is_string (prop j "result") "success" = false
               \/ is_array (prop j "data") = false) by (right; reflexivity).
  split; [reflexivity|]. split; [exact Hs|].
  split; [reflexivity|]. split; [exact Hd|].
  exact (proj1 (proj1 (contributions_wrong_shape w j eq_refl Hs eq_refl Hd) Hj)).
Defined.

(** The answer [null] to [getContributions]. *)
Example contributions_null_answer :
  let w := ClientSamples.answering (ClientSamples.replies JNull) in
  fst (getContributions w)
  = Throw (TypeError "Cannot read properties of null (reading 'newCsrfToken')")
  /\ fetch_calls (trace (snd (getContributions w)))
     = [issued "GET" contributions_params None w].
Proof. split; reflexivity. Qed.

(** Whenever [getContributions] throws, whatever the cause, the
    last error is the message of the thrown error behind the prefix
    [Erreur lors de la récupération des contributions: ]. *)
Theorem contributions_failure_recorded (w : World) (e : exn) :
  fst (getContributions w) = Throw e ->
  lastError (snd (getContributions w))
  = JStr ("Erreur lors de la récupération des contributions: "
            +:+ (if String.eqb (message_of e) "" then "Erreur inconnue"
                 else message_of e)).
Proof.
  rewrite contributions_unfold.
  destruct (makeRequest _ _ _ (after_lazy_init w)) as [[v | e'] w1].
  - destruct (contributions_shape v); [discriminate|]. intros [= <-]. reflexivity.
  - intros [= <-]. reflexivity.
Qed.

Lemma contributions_failure_recorded_witness :
  let w := ClientSamples.answering ClientSamples.unavailable in
  fst (getContributions w) = Throw (Error "Erreur HTTP: 503 Service Unavailable")
  /\ lastError (snd (getContributions w))
     = JStr "Erreur lors de la récupération des contributions: Erreur HTTP: 503 Service Unavailable".
Proof.
  intros w. split; [reflexivity|].
  exact (contributions_failure_recorded w _ eq_refl).
Defined.

(** *** [submitContribution] *)

Lemma submit_unfold (formData : option loc) (w : World) :
  submitContribution formData w
  = match validateFormData (view (heap w) formData) with
    | Throw e => submit_fails e (after_lazy_init w)
    | Return _ =>
        match makeRequest "POST" [] formData (after_lazy_init w) with
        | (Throw e, w2) => submit_fails e w2
        | (Return v, w2) =>
            match token_rejected v w2 with
            | (Throw e, w3) => submit_fails e w3
            | (Return false, w3) => (Return v, w3)
            | (Return true, w3) =>
                match refreshCsrfToken w3 with
                | (Throw e, w4) => submit_fails e w4
                | (Return _, w4) => makeRequest "POST" [] formData w4
                end
            end
        end
    end.
Proof.
  unfold submitContribution, submit_fails, submit_catch, lift.
  destruct (lazy_init_run w) as [b Hb].
  destruct (after_lazy_init_frame w) as [Hh _].
  unfold try_catch, mbind, M_bind, bind, get.
  rewrite Hb, Hh.
  destruct (validateFormData (view (heap w) formData)); [|reflexivity].
  destruct (makeRequest "POST" [] formData (after_lazy_init w)) as [[v | e] w2];
    [|reflexivity].
  destruct (token_rejected v w2) as [[[|] | e] w3]; try reflexivity.
  destruct (refreshCsrfToken w3) as [[b' | e] w4]; reflexivity.
Qed.



(** X24: validation comes before any submission: when
    [validateFormData] rejects the form, [submitContribution] throws
    that very error, makes no call besides the one of a lazy [init],
    leaves the caller's objects untouched, and records the message
    behind the prefix [Erreur lors de l'envoi de la contribution: ]. *)
Theorem invalid_form_not_sent (formData : option loc) (w : World) (e : exn) :
  validateFormData (view (heap w) formData) = Throw e ->
  fst (submitContribution formData w) = Throw e
  /\ fetch_calls (trace (snd (submitContribution formData w)))
     = fetch_calls (trace (after_lazy_init w))
  /\ (isInitialized w = true ->
      fetch_calls (trace (snd (submitContribution formData w)))
      = fetch_calls (trace w))
  /\ heap (snd (submitContribution formData w)) = heap w
  /\ lastError (snd (submitContribution formData w))
     = JStr ("Erreur lors de l'envoi de la contribution: "
               +:+ (if String.eqb (message_of e) "" then "Erreur inconnue"
                    else message_of e)).
Proof.
  intros Hv. rewrite submit_unfold, Hv. unfold submit_fails, submit_catch. run.
  rewrite fetch_calls_app. cbn. rewrite app_nil_r.
  repeat split.
  - intros Hi. unfold after_lazy_init. now rewrite Hi.
  - apply after_lazy_init_frame.
Qed.

Lemma invalid_form_not_sent_witness :
  let w := ClientSamples.ready (JStr "held") ClientSamples.always_stale in
  validateFormData (view (heap w) None) = Throw (Error "Aucune donnée fournie")
  /\ fst (submitContribution None w) = Throw (Error "Aucune donnée fournie")
  /\ fetch_calls (trace (snd (submitContribution None w))) = fetch_calls (trace w)
  /\ lastError (snd (submitContribution None w))
     = JStr "Erreur lors de l'envoi de la contribution: Aucune donnée fournie".
Proof.
  intros w. split; [reflexivity|].
  destruct (invalid_form_not_sent None w _ eq_refl) as (Hr & _ & Hc & _ & Hl).
  split; [exact Hr|]. split; [exact (Hc eq_refl) | exact Hl].
Defined.



(** The answer [null] to the POST of a valid form. *)
Example submit_null_answer :
  let w := ClientSamples.answering (ClientSamples.replies JNull) in
  validateFormData (view (heap w) (Some 0%nat)) = Return true
  /\ fst (submitContribution (Some 0%nat) w)
     = Throw (TypeError "Cannot read properties of null (reading 'newCsrfToken')")
  /\ posts (fetch_calls (trace (snd (submitContribution (Some 0%nat) w))))
     = [issued "POST" [] (Some 0%nat) w].
Proof. repeat split. Qed.



End ClientExtras.

(** ** Further properties of [validateFormData] *)

Module ValidationExtras.
Import ApiClient.

(** *** The shape of an accepted e-mail address *)

Lemma all_chars_app (p : ascii -> bool) (a b : string) :
  all_chars p (a +:+ b) = all_chars p a && all_chars p b.
Proof.
  induction a as [|c a IH]; [reflexivity|].
  change (String c a +:+ b) with (String c (a +:+ b)).
  cbn [all_chars]. rewrite IH. apply andb_assoc.
Qed.

Lemma dot_inside_cons (c : ascii) (rest : string) :
  dot_inside (String c rest)
  = (Ascii.eqb c "." && negb (String.eqb rest "")) || dot_inside rest.
Proof.
  destruct c as [[] [] [] [] [] [] [] []]; destruct rest; reflexivity.
Qed.

Lemma dot_inside_split (s : string) :
  dot_inside s = true ->
  exists b c, s = b +:+ "." +:+ c /\ c <> "".
Proof.
  induction s as [|ch s IH]; [discriminate|].
  rewrite dot_inside_cons. intros [H | H]%orb_prop.
  - apply andb_prop in H as [Hc Hs]. apply Ascii.eqb_eq in Hc as ->.
    exists "", s. split; [reflexivity|]. intros ->. discriminate Hs.
  - destruct (IH H) as (b & c & -> & Hc). exists (String ch b), c. auto.
Qed.

Lemma dot_inside_join (b c : string) :
  c <> "" -> dot_inside (b +:+ "." +:+ c) = true.
Proof.
  intros Hc. induction b as [|ch b IH].
  - change ("" +:+ "." +:+ c) with (String "." c). rewrite dot_inside_cons.
    destruct c; [congruence | reflexivity].
  - change (String ch b +:+ "." +:+ c) with (String ch (b +:+ "." +:+ c)).
    rewrite dot_inside_cons, IH. apply orb_true_r.
Qed.

Lemma all_local_spec (s : string) :
  all_local s = spaceless s && all_chars not_at s.
Proof.
  induction s as [|ch s IH]; [reflexivity|].
  cbn [all_local spaceless all_chars]. rewrite IH. unfold local_char.
  destruct (space_width (String ch s) =? 0)%nat, (not_at ch), (spaceless s),
    (all_chars not_at s); reflexivity.
Qed.

Lemma spaceless_at (s : string) : spaceless (String "@" s) = spaceless s.
Proof.
  cbn [spaceless]. now rewrite space_width_ascii by (cbn; lia).
Qed.

Lemma email_from_split (s : string) :
  forall seen, email_from seen s = true ->
  spaceless s = true
  /\ exists a b c,
       s = a +:+ "@" +:+ b +:+ "." +:+ c
       /\ (seen = false -> a <> "") /\ b <> "" /\ c <> ""
       /\ all_chars not_at a = true
       /\ all_chars not_at b = true
       /\ all_chars not_at c = true.
Proof.
  induction s as [|ch s IH]; intros seen; [discriminate|].
  cbn [email_from]. destruct (Ascii.eqb_spec ch "@") as [-> | Hne].
  - intros [Hseen Hd]%andb_prop. unfold email_domain in Hd.
    apply andb_prop in Hd as [Hall Hdot]. rewrite all_local_spec in Hall.
    apply andb_prop in Hall as [Hsp Hall].
    split; [now rewrite spaceless_at|].
    destruct s as [|x s]; [discriminate Hdot|].
    destruct (dot_inside_split s Hdot) as (b & c & -> & Hc).
    exists "", (String x b), c.
    change (String x (b +:+ "." +:+ c)) with (String x b +:+ "." +:+ c) in Hall.
    rewrite !all_chars_app in Hall.
    apply andb_prop in Hall as [Hb Hrest]. apply andb_prop in Hrest as [_ Hcc].
    repeat split; try assumption; try discriminate.
    intros ->. discriminate Hseen.
  - intros [Hl Hrest]%andb_prop. unfold local_char in Hl.
    apply andb_prop in Hl as [Hw Hch].
    destruct (IH true Hrest)
      as (Hsp & a & b & c & -> & _ & Hb & Hc & Ha & Hbb & Hcc).
    split; [cbn [spaceless]; now rewrite Hw, Hsp|].
    exists (String ch a), b, c. repeat split; try assumption; try discriminate.
    cbn [all_chars]. now rewrite Hch, Ha.
Qed.

Lemma email_from_join (a b c : string) :
  forall seen, (seen = false -> a <> "") -> b <> "" -> c <> "" ->
  spaceless (a +:+ "@" +:+ b +:+ "." +:+ c) = true ->
  all_chars not_at a = true ->
  all_chars not_at b = true ->
  all_chars not_at c = true ->
  email_from seen (a +:+ "@" +:+ b +:+ "." +:+ c) = true.
Proof.
  induction a as [|ch a IH]; intros seen Hseen Hb Hc Hsp Ha Hbb Hcc.
  - destruct seen; [|now destruct Hseen].
    change ("" +:+ "@" +:+ b +:+ "." +:+ c) with (String "@" (b +:+ "." +:+ c))
      in Hsp |- *.
    rewrite spaceless_at in Hsp.
    cbn [email_from]. change (Ascii.eqb "@" "@") with true. cbv iota.
    unfold email_domain.
    rewrite all_local_spec, Hsp, !all_chars_app, Hbb, Hcc.
    destruct b as [|x b]; [congruence|].
    change (String x b +:+ "." +:+ c) with (String x (b +:+ "." +:+ c)).
    cbv iota beta. rewrite dot_inside_join by assumption. reflexivity.
  - cbn [all_chars] in Ha. apply andb_prop in Ha as [Hch Ha].
    change (String ch a +:+ "@" +:+ b +:+ "." +:+ c)
      with (String ch (a +:+ "@" +:+ b +:+ "." +:+ c)) in Hsp |- *.
    cbn [spaceless] in Hsp. apply andb_prop in Hsp as [Hw Hsp].
    cbn [email_from]. unfold local_char. rewrite Hw, Hch.
    unfold not_at in Hch. apply negb_true_iff in Hch. rewrite Hch.
    cbn [andb]. apply IH; auto.
Qed.

(** X27: the e-mail test accepts exactly the strings that hold no
    white-space character, of one byte or of several, and have the form
    [local@domain.tld] with the three parts non-empty and free of [@]
    (so exactly one [@], and a dot inside what follows it). *)
Theorem email_shape (s : string) :
  emailRegex_test s = true
  <-> spaceless s = true
      /\ exists a b c,
           s = a +:+ "@" +:+ b +:+ "." +:+ c
           /\ a <> "" /\ b <> "" /\ c <> ""
           /\ all_chars not_at a = true
           /\ all_chars not_at b = true
           /\ all_chars not_at c = true.
Proof.
  unfold emailRegex_test. split.
  - intros H. destruct (email_from_split s false H)
      as (Hsp & a & b & c & -> & Ha & Hb & Hc & Hla & Hlb & Hlc).
    split; [exact Hsp|]. exists a, b, c. repeat split; auto.
  - intros (Hsp & a & b & c & -> & Ha & Hb & Hc & Hla & Hlb & Hlc).
    apply email_from_join; auto.
Qed.

(** A no-break space (the bytes C2 A0) in the local part is white space
    for the test, as is a space. *)
Example email_with_no_break_space :
  emailRegex_test
    ("ada" +:+ String (ascii_of_N 194) (String (ascii_of_N 160) "b@example.org"))
  = false
  /\ emailRegex_test "ada b@example.org" = false
  /\ emailRegex_test "adab@example.org" = true.
Proof. repeat split. Qed.

(** A telephone of Unicode white space only is blank for [trim], as one
    of ASCII white space. *)
Example trim_unicode_blank :
  trim (String (ascii_of_N 194) (String (ascii_of_N 160) " ")) = ""
  /\ trim (String (ascii_of_N 239) (String (ascii_of_N 187)
             (String (ascii_of_N 191) " 06 "))) = "06"
  /\ parseInt (String (ascii_of_N 226) (String (ascii_of_N 128)
                 (String (ascii_of_N 168) "12"))) = Some 12.
Proof. repeat split. Qed.

(** *** What an accepted form satisfies *)






(** X29: [nbPersonnes] is not among the required fields, yet a form
    without it is never accepted: [parseInt(undefined)] is [NaN], so a
    form that passes the checks before it is rejected as
    [Nombre de personnes invalide]. *)
Theorem form_without_nbPersonnes_rejected (data : json) :
  prop data "nbPersonnes" = None ->
  (exists e, validateFormData data = Throw e)
  /\ (truthy data = true -> missingFields data = [] ->
      emailRegex_test (ToString_opt (prop data "email")) = true ->
      category_ok (prop data "categorie") = true ->
      validateFormData data
      = Throw (Error "Nombre de personnes invalide (doit être entre 1 et 20)")).
Proof.
  intros Hnb. unfold validateFormData. rewrite Hnb.
  change (out_of_range (parseInt (ToString_opt None)) 1 20) with true.
  split.
  - destruct (negb (truthy data)); [eauto|].
    destruct (negb (length (missingFields data) =? 0)%nat); [eauto|].
    destruct (negb (emailRegex_test _)); [eauto|].
    destruct (negb (category_ok _)); eauto.
  - intros -> -> -> ->. reflexivity.
Qed.

Lemma form_without_nbPersonnes_rejected_witness :
  let data := JObj [ ("nom", JStr "Ada"); ("email", JStr "ada@example.org");
                     ("categorie", JStr "sucre"); ("detail", JStr "tarte");
                     ("portions", JStr "8") ] in
  prop data "nbPersonnes" = None
  /\ missingFields data = []
  /\ validateFormData data
     = Throw (Error "Nombre de personnes invalide (doit être entre 1 et 20)").
Proof.
  intros data. split; [reflexivity|]. split; [reflexivity|].
  exact (proj2 (form_without_nbPersonnes_rejected data eq_refl)
               eq_refl eq_refl eq_refl eq_refl).
Defined.

(** X30: the bounds.  For a form whose other checks pass, with
    [nbPersonnes] and [portions] given as the decimal numerals of [n] and
    [m] and no telephone, [validateFormData] accepts exactly when
    1 <= n <= 20 and 1 <= m <= 100; [nbPersonnes] is checked first. *)
Theorem people_and_portions_bounds (data : json) (n m : N) :
  truthy data = true -> missingFields data = [] ->
  emailRegex_test (ToString_opt (prop data "email")) = true ->
  category_ok (prop data "categorie") = true ->
  prop data "telephone" = None ->
  prop data "nbPersonnes" = Some (JStr (decimal n)) ->
  prop data "portions" = Some (JStr (decimal m)) ->
  (validateFormData data = Return true
   <-> (1 <= n <= 20)%N /\ (1 <= m <= 100)%N)
  /\ ((n = 0 \/ 20 < n)%N ->
      validateFormData data
      = Throw (Error "Nombre de personnes invalide (doit être entre 1 et 20)"))
  /\ ((1 <= n <= 20)%N -> (m = 0 \/ 100 < m)%N ->
      validateFormData data
      = Throw (Error "Nombre de portions invalide (doit être entre 1 et 100)")).
Proof.
  intros Ht Hm He Hc Htel Hn Hp.
  unfold validateFormData.
  rewrite Ht, Hm, He, Hc, Htel, Hn, Hp. cbn [negb length Nat.eqb ToString_opt ToString].
  rewrite !parseInt_decimal. unfold out_of_range. cbn [isNaN num_lt num_gt orb].
  destruct (Z.ltb_spec (Z.of_N n) 1), (Z.ltb_spec 20 (Z.of_N n)),
    (Z.ltb_spec (Z.of_N m) 1), (Z.ltb_spec 100 (Z.of_N m));
    cbn [orb check_telephone]; repeat split; intros; try lia; try reflexivity;
    try discriminate.
Qed.

Lemma people_and_portions_bounds_witness :
  let data := JObj [ ("nom", JStr "Ada"); ("email", JStr "ada@example.org");
                     ("categorie", JStr "sucre"); ("detail", JStr "tarte");
                     ("portions", JStr (decimal 100));
                     ("nbPersonnes", JStr (decimal 20)) ] in
  truthy data = true /\ missingFields data = []
  /\ emailRegex_test (ToString_opt (prop data "email")) = true
  /\ category_ok (prop data "categorie") = true
  /\ prop data "telephone" = None
  /\ prop data "nbPersonnes" = Some (JStr (decimal 20))
  /\ prop data "portions" = Some (JStr (decimal 100))
  /\ validateFormData data = Return true.
Proof.
  intros data. do 7 (split; [reflexivity|]).
  apply (proj1 (people_and_portions_bounds data 20 100
                  eq_refl eq_refl eq_refl eq_refl eq_refl eq_refl eq_refl)).
  split; lia.
Defined.

End ValidationExtras.
